(** * Axis layout of owid-grapher: a shallow embedding

    The development follows the TypeScript sources:

    - [charts/controls/ScaleSelector.tsx]  (module [ScaleSelector])
    - [charts/axis/AxisSpec.ts]            (modules [AxisSpec], [AxisSpecLegacy])
    - [AxisBox.tsx]                        (modules [AxisBox], [Axis])

    Numbers.  JavaScript numbers are modelled as exact rationals ([Q])
    wherever the code only performs finite arithmetic on pixel
    coordinates, timestamps and interpolation factors: rounding is not
    modelled.  [AxisSpec.ts] itself manipulates [Infinity] and
    [-Infinity], so there the numbers are the extended type [number]
    with [NaN] and the two infinities. *)

From Stdlib Require Import QArith Qminmax Qround Qabs ZArith Lia Lqa Bool String.
From stdpp Require Import base list.

Local Open Scope Q_scope.

(** ** Scale types *)

(** Modelled from the spec: the enumeration [ScaleType] of
    [charts/core/ChartConstants], which is missing from the sources;
    the spec gives a scale type as [Linear|Log], and the sources use
    [ScaleType.linear] and [ScaleType.log]. *)
Inductive ScaleType : Type := linear | log.

Definition ScaleType_eqb (a b : ScaleType) : bool :=
  match a, b with
  | linear, linear | log, log => true
  | _, _ => false
  end.

(** [p < q] and [p > q] on finite numbers. *)
Definition Qltb (p q : Q) : bool := negb (Qle_bool q p).
Definition Qgtb (p q : Q) : bool := negb (Qle_bool p q).

(** ** JavaScript numbers with the non-finite values *)

Inductive number : Type :=
| NaN
| NegInf
| Fin (q : Q)
| PosInf.

Module Num.

(** [a < b] of JavaScript: false as soon as one side is [NaN]. *)
Definition ltb (a b : number) : bool :=
  match a, b with
  | NaN, _ | _, NaN => false
  | _, NegInf => false
  | NegInf, _ => true
  | PosInf, _ => false
  | Fin _, PosInf => true
  | Fin p, Fin q => Qltb p q
  end.

(** [a <= b] of JavaScript. *)
Definition leb (a b : number) : bool :=
  match a, b with
  | NaN, _ | _, NaN => false
  | NegInf, _ => true
  | _, PosInf => true
  | _, NegInf => false
  | PosInf, _ => false
  | Fin p, Fin q => Qle_bool p q
  end.

(** [a > b] and [a >= b] are the mirrored tests. *)
Definition gtb (a b : number) : bool := ltb b a.
Definition geb (a b : number) : bool := leb b a.

(** [Math.min(a, b)]: [NaN] if either argument is [NaN]. *)
Definition min (a b : number) : number :=
  match a, b with
  | NaN, _ | _, NaN => NaN
  | _, _ => if leb a b then a else b
  end.

(** [Math.max(a, b)]. *)
Definition max (a b : number) : number :=
  match a, b with
  | NaN, _ | _, NaN => NaN
  | _, _ => if leb a b then b else a
  end.

Definition isNaN (a : number) : bool :=
  match a with NaN => true | _ => false end.

(** Truthiness of a number: [0] and [NaN] are falsy. *)
Definition truthy (a : number) : bool :=
  match a with
  | NaN => false
  | Fin q => negb (Qeq_bool q 0)
  | _ => true
  end.

(** [v || d] where [v] may be [undefined]. *)
Definition or_default (v : option number) (d : number) : number :=
  match v with
  | Some a => if truthy a then a else d
  | None => d
  end.

(** [v ?? d]: only [undefined] (and [null]) are replaced. *)
Definition nullish (v : option number) (d : number) : number :=
  match v with
  | Some a => a
  | None => d
  end.

(** lodash [defaultTo(v, d)]: [d] when [v] is [undefined], [null] or [NaN]. *)
Definition defaultTo (v : option number) (d : number) : number :=
  match v with
  | Some NaN | None => d
  | Some a => a
  end.

(** Equality of numbers as values (finite ones up to [Qeq]). *)
Definition eq (a b : number) : Prop :=
  match a, b with
  | NaN, NaN | NegInf, NegInf | PosInf, PosInf => True
  | Fin p, Fin q => p == q
  | _, _ => False
  end.

End Num.

(** ** ScaleSelector.tsx *)

Module ScaleSelector.

Record ScaleTypeConfig : Type := {
  scaleType : ScaleType;
  scaleTypeOptions : list ScaleType;
  (* whether the optional callback [updateChartScaleType] is supplied *)
  updateChartScaleType : bool
}.

Record ScaleSelectorOptions : Type := {
  scaleTypeConfig : ScaleTypeConfig;
  (* whether the optional callback [onScaleTypeChange] is supplied *)
  onScaleTypeChange : bool
}.

(** [Array.prototype.indexOf]: index of the first occurrence, [-1] if
    there is none. *)
Fixpoint indexOf (l : list ScaleType) (v : ScaleType) : Z :=
  match l with
  | [] => (-1)%Z
  | a :: l' =>
      if ScaleType_eqb a v then 0%Z
      else let r := indexOf l' v in
           if (r <? 0)%Z then (-1)%Z else (r + 1)%Z
  end.

(** Array read [l[i]]: [undefined] ([None]) out of range. *)
Definition at_index {A} (l : list A) (i : Z) : option A :=
  if (i <? 0)%Z then None else l !! Z.to_nat i.

Definition nextScaleTypeIndex (opts : list ScaleType) (cur : ScaleType) : Z :=
  let next := (indexOf opts cur + 1)%Z in
  if (next >=? Z.of_nat (length opts))%Z then 0%Z else next.

(** The value [newValue] computed by [onClick]. *)
Definition newValue (opts : list ScaleType) (cur : ScaleType) : option ScaleType :=
  at_index opts (nextScaleTypeIndex opts cur).

(** What [onClick] does with [newValue]: exactly one of the two
    callbacks is called, or the config is assigned directly. *)
Inductive Effect : Type :=
| CallOnScaleTypeChange (v : option ScaleType)
| CallUpdateChartScaleType (v : option ScaleType)
| AssignScaleType (v : option ScaleType).

Definition onClick (props : ScaleSelectorOptions) : Effect :=
  let cfg := scaleTypeConfig props in
  let v := newValue (scaleTypeOptions cfg) (scaleType cfg) in
  if onScaleTypeChange props then CallOnScaleTypeChange v
  else if updateChartScaleType cfg then CallUpdateChartScaleType v
  else AssignScaleType v.

Definition selected (e : Effect) : option ScaleType :=
  match e with
  | CallOnScaleTypeChange v | CallUpdateChartScaleType v | AssignScaleType v => v
  end.

(** The direct-mutation fallback: the config after the assignment
    [scaleTypeConfig.scaleType = newValue]. *)
Definition assign (cfg : ScaleTypeConfig) (v : ScaleType) : ScaleTypeConfig :=
  {| scaleType := v;
     scaleTypeOptions := scaleTypeOptions cfg;
     updateChartScaleType := updateChartScaleType cfg |}.

End ScaleSelector.

(** ** AxisSpec.ts *)

Module AxisSpec.

(** The observable fields of [AxisRuntime] that the domain logic reads. *)
Record AxisRuntime : Type := {
  min : option number;
  max : option number;
  scaleType : ScaleType;
  canChangeScaleType : bool;
  label : string
}.

(** The fields of the interface [AxisSpec] produced by [toSpec]
    ([tickFormat] is the constant template [d => `${d}`]). *)
Record AxisSpec : Type := {
  spec_label : string;
  domain_of : number * number;
  spec_scaleType : ScaleType;
  spec_scaleTypeOptions : list ScaleType
}.

Definition constrainedMin (r : AxisRuntime) : number :=
  if ScaleType_eqb (scaleType r) log
     && Num.leb (Num.or_default (min r) (Fin 0)) (Fin 0)
  then PosInf
  else Num.nullish (min r) PosInf.

Definition constrainedMax (r : AxisRuntime) : number :=
  if ScaleType_eqb (scaleType r) log
     && Num.leb (Num.or_default (max r) (Fin 0)) (Fin 0)
  then NegInf
  else Num.nullish (max r) NegInf.

Definition isOutsideDomain (r : AxisRuntime) (value : number) : bool :=
  Num.ltb value (constrainedMin r) || Num.gtb value (constrainedMax r).

Definition domain (r : AxisRuntime) : number * number :=
  (constrainedMin r, constrainedMax r).

Definition scaleTypeOptions (r : AxisRuntime) : list ScaleType :=
  if canChangeScaleType r then [linear; log] else [scaleType r].

Definition toSpec (r : AxisRuntime) (defaultDomain : number * number) : AxisSpec :=
  {| spec_label := label r;
     domain_of := (Num.min (fst (domain r)) (fst defaultDomain),
                   Num.max (snd (domain r)) (snd defaultDomain));
     spec_scaleType := scaleType r;
     spec_scaleTypeOptions := scaleTypeOptions r |}.

End AxisSpec.

(** The earlier revision of [AxisSpec.ts]: the constrained bounds are
    [undefined] when unset or log-invalid, the label is optional, and
    [toSpec] fills the gaps in with lodash's [defaultTo]. *)
Module AxisSpecLegacy.

Record AxisRuntime : Type := {
  min : option number;
  max : option number;
  scaleType : ScaleType;
  canChangeScaleType : bool;
  label : option string
}.

Definition constrainedMin (r : AxisRuntime) : option number :=
  if ScaleType_eqb (scaleType r) log
     && Num.leb (Num.or_default (min r) (Fin 0)) (Fin 0)
  then None
  else min r.

Definition constrainedMax (r : AxisRuntime) : option number :=
  if ScaleType_eqb (scaleType r) log
     && Num.leb (Num.or_default (max r) (Fin 0)) (Fin 0)
  then None
  else max r.

Definition domain (r : AxisRuntime) : option number * option number :=
  (constrainedMin r, constrainedMax r).

Definition scaleTypeOptions (r : AxisRuntime) : list ScaleType :=
  if canChangeScaleType r then [linear; log] else [scaleType r].

(** [this.label || ""] *)
Definition label_or_empty (l : option string) : string :=
  match l with
  | Some s => s
  | None => EmptyString
  end.

Definition toSpec (r : AxisRuntime) (defaultDomain : number * number)
  : AxisSpec.AxisSpec :=
  {| AxisSpec.spec_label := label_or_empty (label r);
     AxisSpec.domain_of :=
       (Num.min (Num.defaultTo (fst (domain r)) PosInf) (fst defaultDomain),
        Num.max (Num.defaultTo (snd (domain r)) NegInf) (snd defaultDomain));
     AxisSpec.spec_scaleType := scaleType r;
     AxisSpec.spec_scaleTypeOptions := scaleTypeOptions r |}.

End AxisSpecLegacy.

(** ** Collaborators that are not among the sources *)

(** Modelled from the spec: the rectangle type [Bounds] of
    [charts/utils/Bounds], which is missing from the sources.  The spec
    lists it as an immutable axis-aligned rectangle with
    [padLeft/padRight/padTop/padBottom(amount)], [intersects(other)],
    [xRange()/yRange()], the accessors
    [left/right/top/bottom/centerX/centerY/width/height] and
    [padWidth(delta)] ("negative delta shrinks").  Padding one side by
    [amount] takes [amount] away from that side (the inner bounds are
    what remains of the outer bounds); [padWidth delta] moves both
    vertical edges outwards by [delta], so that a negative [delta]
    shrinks the rectangle, by [-delta] on the left and on the right.
    Screen coordinates: [y] grows downwards, so [top = y]; [xRange] runs
    from left to right and [yRange] from bottom to top, the pixel ranges
    of an x and of a y scale.  [extend], which the sources call with the
    position [{x, y}] of a tick label, returns the rectangle with these
    two fields replaced. *)
Module Bounds.

Record t : Type := mk { x : Q; y : Q; width : Q; height : Q }.

Definition left (b : t) : Q := x b.
Definition top (b : t) : Q := y b.
Definition right (b : t) : Q := x b + width b.
Definition bottom (b : t) : Q := y b + height b.

Definition padLeft (b : t) (amount : Q) : t :=
  mk (x b + amount) (y b) (width b - amount) (height b).

Definition padBottom (b : t) (amount : Q) : t :=
  mk (x b) (y b) (width b) (height b - amount).

Definition padWidth (b : t) (delta : Q) : t :=
  mk (x b - delta) (y b) (width b + 2 * delta) (height b).

(** [b.extend({x, y})]: the same rectangle moved to a new origin. *)
Definition extend (b : t) (xy : Q * Q) : t :=
  mk (fst xy) (snd xy) (width b) (height b).

(** Two closed rectangles intersect unless one lies wholly to one
    side of the other. *)
Definition intersects (r1 r2 : t) : bool :=
  negb (Qgtb (left r2) (right r1)
        || Qltb (right r2) (left r1)
        || Qgtb (top r2) (bottom r1)
        || Qltb (bottom r2) (top r1)).

Definition xRange (b : t) : Q * Q := (left b, right b).
Definition yRange (b : t) : Q * Q := (bottom b, top b).

End Bounds.

(** ** lodash helpers

    [uniq], [sortBy] and [maxBy] reach the sources through
    [charts/utils/Util]; they are lodash's functions and follow its
    documentation. *)

(** A JavaScript object together with its identity.  lodash's [uniq]
    compares array elements with SameValueZero, which on objects is
    identity, not structural equality. *)
Record Obj (A : Type) : Type := mkObj { addr : nat; obj : A }.
Arguments mkObj {A} _ _.
Arguments addr {A} _.
Arguments obj {A} _.

Module Lodash.

(** [uniq]: keep the first occurrence of every element. *)
Fixpoint uniq {A} (l : list (Obj A)) : list (Obj A) :=
  match l with
  | [] => []
  | o :: l' => o :: List.filter (fun o' => negb (addr o' =? addr o)%nat) (uniq l')
  end.

(** An address that no object of [l] has: where a fresh object
    literal is allocated. *)
Definition fresh {A} (l : list (Obj A)) : nat :=
  S (list_max (List.map addr l)).

(** [sortBy(l, key)]: a stable sort, ascending in [key]. *)
Fixpoint insertBy {A} (key : A -> Q) (a : A) (l : list A) : list A :=
  match l with
  | [] => [a]
  | b :: l' =>
      if Qle_bool (key a) (key b) then a :: b :: l'
      else b :: insertBy key a l'
  end.

Fixpoint sortBy {A} (key : A -> Q) (l : list A) : list A :=
  match l with
  | [] => []
  | a :: l' => insertBy key a (sortBy key l')
  end.

(** [maxBy(l, f)]: the first element at which [f] is largest,
    [undefined] on the empty array. *)
Fixpoint maxBy {A} (f : A -> nat) (l : list A) : option A :=
  match l with
  | [] => None
  | a :: l' =>
      match maxBy f l' with
      | Some b => if (f a <? f b)%nat then Some b else Some a
      | None => Some a
      end
  end.

End Lodash.

(** ** Tick marks and scales ([AxisScale.ts], not among the sources) *)

(** Modelled from the spec: the interface [Tickmark] of [AxisScale.ts],
    which is missing from the sources.  The spec gives it as a value, a
    priority (lower = more important) and the flags [isFirstOrLastTick],
    [gridLineOnly] and [faint]; an absent flag is [false] (the sources
    only test the flags' truthiness). *)
Record Tickmark : Type := {
  value : Q;
  priority : Q;
  faint : bool;
  gridLineOnly : bool;
  isFirstOrLastTick : bool
}.

(** Modelled from the spec: the class [AxisScale] of [AxisScale.ts],
    which is missing from the sources (the spec's ScaleMapper: it "owns
    a ScaleSpec plus a pixel range").  The fields are those that
    [AxisBox.tsx] reads: the ones of the [AxisSpec] the scale was built
    from, and its range. *)
Record AxisScale : Type := {
  scale_label : string;
  scale_domain : Q * Q;
  scale_scaleType : ScaleType;
  scale_scaleTypeOptions : list ScaleType;
  hideFractionalTicks : bool;
  hideGridlines : bool;
  range : Q * Q
}.

(** The services the axis layout consumes and that are not among the
    sources: the methods of [AxisScale], text measurement
    ([Bounds.forText]) and label wrapping ([TextWrap]). *)
Class Collaborators : Type := {
  (* scale.getTickValues() *)
  getTickValues : AxisScale -> list (Obj Tickmark);
  (* scale.getFormattedTicks() *)
  getFormattedTicks : AxisScale -> list string;
  (* scale.tickFormat(value, {...scale.getTickFormattingOptions(), isFirstOrLastTick}) *)
  tickFormat : AxisScale -> Q -> bool -> string;
  (* scale.place(value) *)
  place : AxisScale -> Q -> Q;
  (* scale.rangeSize *)
  rangeSize : AxisScale -> Q;
  (* Bounds.forText(text, {fontSize}); text may be undefined *)
  forText : option string -> Q -> Bounds.t;
  (* new TextWrap({maxWidth, fontSize, text}).height *)
  textWrapHeight : Q -> Q -> string -> Q
}.

(** ** AxisBox.tsx: the axis layout classes *)

Module Axis.

(** The two concrete subclasses of [AbstractAxis]. *)
Inductive Kind : Type := Vertical | Horizontal.

Record AxisProps : Type := {
  scale : AxisScale;
  labelText : string;
  fontSize : Q
}.

(** An element of the array built by [tickPlacements]. *)
Record TickPlacement : Type := {
  tick : Q;
  bounds : Bounds.t;
  isHidden : bool
}.

(** The assignment [t.isHidden = true]. *)
Definition hide (t : TickPlacement) : TickPlacement :=
  {| tick := tick t; bounds := bounds t; isHidden := true |}.

(** [HorizontalAxis.labelPadding] *)
Definition labelPadding : Q := 5.

(** [domain[i] % 1 === 0] *)
Definition isWhole (q : Q) : bool := Qeq_bool (inject_Z (Qfloor q)) q.

(** [doIntersect], overridden by [HorizontalAxis]. *)
Definition doIntersect (k : Kind) (bounds1 bounds2 : Bounds.t) : bool :=
  match k with
  | Vertical => Bounds.intersects bounds1 bounds2
  | Horizontal => Bounds.intersects bounds1 (Bounds.padWidth bounds2 (-5))
  end.

Section Layout.

Context `{Collaborators}.

Definition tickFontSize (props : AxisProps) : Q := 0.9 * fontSize props.
Definition labelFontSize (props : AxisProps) : Q := 0.7 * fontSize props.

(** [labelWidth]: [height], that is [scale.rangeSize], for the
    vertical axis; [scale.rangeSize] for the horizontal one. *)
Definition labelWidth (k : Kind) (props : AxisProps) : Q :=
  match k with
  | Vertical => rangeSize (scale props)
  | Horizontal => rangeSize (scale props)
  end.

(** [label.height] when [label] is defined, that is when the label
    text is not the empty string. *)
Definition labelHeight (k : Kind) (props : AxisProps) : option Q :=
  match labelText props with
  | EmptyString => None
  | text => Some (textWrapHeight (labelWidth k props) (labelFontSize props) text)
  end.

Definition labelOffset (k : Kind) (props : AxisProps) : Q :=
  match labelHeight k props with
  | Some h =>
      match k with
      | Vertical => h + 10
      | Horizontal => h + labelPadding * 2
      end
  | None => 0
  end.

(** [VerticalAxis.width] *)
Definition width (props : AxisProps) : Q :=
  let longestTick :=
    Lodash.maxBy String.length (getFormattedTicks (scale props)) in
  Bounds.width (forText longestTick (tickFontSize props))
  + labelOffset Vertical props + 5.

(** [HorizontalAxis.height] *)
Definition height (props : AxisProps) : Q :=
  let firstFormattedTick := head (getFormattedTicks (scale props)) in
  Bounds.height (forText firstFormattedTick (tickFontSize props))
  + labelOffset Horizontal props + 5.

(** [AbstractAxis.baseTicks] *)
Definition abstractBaseTicks (props : AxisProps) : list (Obj Tickmark) :=
  List.filter (fun t => negb (gridLineOnly (obj t)))
              (getTickValues (scale props)).

(** The object literal that [HorizontalAxis.baseTicks] adds for a
    whole domain end point. *)
Definition endPointTick (v startEndPrio : Q) : Tickmark :=
  {| value := v; priority := startEndPrio;
     faint := false; gridLineOnly := false; isFirstOrLastTick := true |}.

Definition startEndPrio (props : AxisProps) : Q :=
  if ScaleType_eqb (scale_scaleType (scale props)) log then 2 else 1.

(** [HorizontalAxis.baseTicks] *)
Definition horizontalBaseTicks (props : AxisProps) : list (Obj Tickmark) :=
  let ticks := abstractBaseTicks props in
  let domain := scale_domain (scale props) in
  let ticks1 :=
    if isWhole (fst domain)
    then mkObj (Lodash.fresh ticks)
               (endPointTick (fst domain) (startEndPrio props)) :: ticks
    else ticks in
  let ticks2 :=
    if isWhole (snd domain) && hideFractionalTicks (scale props)
    then ticks1 ++ [mkObj (Lodash.fresh ticks1)
                          (endPointTick (snd domain) (startEndPrio props))]
    else ticks1 in
  Lodash.uniq ticks2.

Definition baseTicks (k : Kind) (props : AxisProps) : list Tickmark :=
  List.map obj
    match k with
    | Vertical => abstractBaseTicks props
    | Horizontal => horizontalBaseTicks props
    end.

(** [placeTick(tickValue, bounds)]: the pair [(x, y)]. *)
Definition placeTick (k : Kind) (props : AxisProps)
           (tickValue : Q) (b : Bounds.t) : Q * Q :=
  match k with
  | Vertical => (1, place (scale props) tickValue)
  | Horizontal =>
      (place (scale props) tickValue - Bounds.width b / 2,
       Bounds.bottom b - labelOffset Horizontal props)
  end.

(** The placement computed for one tick by the [map] of
    [tickPlacements]. *)
Definition placement (k : Kind) (props : AxisProps) (t : Tickmark)
  : TickPlacement :=
  let b := forText (Some (tickFormat (scale props) (value t)
                                     (isFirstOrLastTick t)))
                   (tickFontSize props) in
  {| tick := value t;
     bounds := Bounds.extend b (placeTick k props (value t) b);
     isHidden := false |}.

(** [tickPlacements]: coordinates for ticks, sorted by priority. *)
Definition tickPlacements (k : Kind) (props : AxisProps)
  : list TickPlacement :=
  List.map (placement k props) (Lodash.sortBy priority (baseTicks k props)).

End Layout.

(** *** The collision pass of [ticks] *)

(** The body of the inner loop for the indices [i] and [j].  The
    placements are distinct objects, so [t1 === t2] is [i = j]. *)
Definition compare (k : Kind) (i j : nat) (ps : list TickPlacement)
  : list TickPlacement :=
  match ps !! i, ps !! j with
  | Some t1, Some t2 =>
      if (i =? j)%nat || isHidden t1 || isHidden t2 then ps
      else if doIntersect k (bounds t1) (bounds t2)
           then <[j := hide t2]> ps
           else ps
  | _, _ => ps
  end.

(** [for (let j = i + 1; j < tickPlacements.length; j++)] *)
Definition innerLoop (k : Kind) (i : nat) (ps : list TickPlacement)
  : list TickPlacement :=
  foldl (fun acc j => compare k i j acc) ps (seq (S i) (length ps - S i)).

(** [for (let i = 0; i < tickPlacements.length; i++)] *)
Definition collisionPass (k : Kind) (ps : list TickPlacement)
  : list TickPlacement :=
  foldl (fun acc i => innerLoop k i acc) ps (seq 0 (length ps)).

(** The placements that are left after the pass. *)
Definition survivors (ps : list TickPlacement) : list TickPlacement :=
  List.filter (fun t => negb (isHidden t)) ps.

(** [AbstractAxis.ticks] *)
Definition ticks `{Collaborators} (k : Kind) (props : AxisProps) : list Q :=
  Lodash.sortBy (fun v => v)
    (List.map tick (survivors (collisionPass k (tickPlacements k props)))).

End Axis.

(** ** AxisBox.tsx: the coordinator of the two axes *)

Module AxisBox.

(** The interface [AxisSpec] as [AxisBox] consumes it, with a finite
    domain ([tickFormat] is carried by the scale collaborator). *)
Record AxisSpec : Type := {
  label : string;
  domain : Q * Q;
  scaleType : ScaleType;
  scaleTypeOptions : list ScaleType;
  spec_hideFractionalTicks : bool;
  spec_hideGridlines : bool
}.

Record AxisBoxProps : Type := {
  bounds : Bounds.t;
  fontSize : Q;
  xAxisSpec : AxisSpec;
  yAxisSpec : AxisSpec
}.

(** The instance: its props and its mutable fields. *)
Record AxisBox : Type := {
  props : AxisBoxProps;
  targetYDomain : Q * Q;
  targetXDomain : Q * Q;
  prevYDomain : Q * Q;
  prevXDomain : Q * Q;
  animProgress : option Q;
  frameStart : option Q
}.


(** Truthiness of an optional number: [undefined] and [0] are falsy. *)
Definition truthy (v : option Q) : bool :=
  match v with
  | Some q => negb (Qeq_bool q 0)
  | None => false
  end.

(** The interpolation shared by [currentYDomain] and [currentXDomain]:
    [progress] replaces a falsy [animProgress] in the first component
    only; the second one multiplies by [this.animProgress]. *)
Definition currentDomain (spec : AxisSpec) (prev target : Q * Q)
           (anim : option Q) : Q * Q :=
  match anim with
  | None => domain spec
  | Some a =>
      let '(prevMin, prevMax) := prev in
      let '(targetMin, targetMax) := target in
      let progress :=
        if truthy (Some a) then a
        else if ScaleType_eqb (scaleType spec) log then 0.01
        else 0 in
      (prevMin + (targetMin - prevMin) * progress,
       prevMax + (targetMax - prevMax) * a)
  end.

Definition currentYDomain (ab : AxisBox) : Q * Q :=
  currentDomain (yAxisSpec (props ab)) (prevYDomain ab) (targetYDomain ab)
                (animProgress ab).

Definition currentXDomain (ab : AxisBox) : Q * Q :=
  currentDomain (xAxisSpec (props ab)) (prevXDomain ab) (targetXDomain ab)
                (animProgress ab).


(** The effect of the reaction registered by [setupAnimation], run
    when one of the two configured domains has changed; it ends by
    requesting an animation frame. *)
Definition onDomainChange (ab : AxisBox) : AxisBox :=
  {| props := props ab;
     targetYDomain := domain (yAxisSpec (props ab));
     targetXDomain := domain (xAxisSpec (props ab));
     prevYDomain := currentYDomain ab;
     prevXDomain := currentXDomain ab;
     animProgress := Some 0;
     frameStart := frameStart ab |}.




(** [extend({}, spec, { domain })] *)
Definition withDomain (spec : AxisSpec) (d : Q * Q) : AxisSpec :=
  {| label := label spec;
     domain := d;
     scaleType := scaleType spec;
     scaleTypeOptions := scaleTypeOptions spec;
     spec_hideFractionalTicks := spec_hideFractionalTicks spec;
     spec_hideGridlines := spec_hideGridlines spec |}.

(** The computed [yAxisSpec] and [xAxisSpec] of the instance. *)
Definition currentYAxisSpec (ab : AxisBox) : AxisSpec :=
  withDomain (yAxisSpec (props ab)) (currentYDomain ab).

Definition currentXAxisSpec (ab : AxisBox) : AxisSpec :=
  withDomain (xAxisSpec (props ab)) (currentXDomain ab).

(** [new AxisScale(spec).clone({ range })] *)
Definition scaleWithRange (spec : AxisSpec) (r : Q * Q) : AxisScale :=
  {| scale_label := label spec;
     scale_domain := domain spec;
     scale_scaleType := scaleType spec;
     scale_scaleTypeOptions := scaleTypeOptions spec;
     hideFractionalTicks := spec_hideFractionalTicks spec;
     hideGridlines := spec_hideGridlines spec;
     range := r |}.

Section Sizing.

Context `{Collaborators}.

(** The props of the scratch [HorizontalAxis] of [xAxisHeight]. *)
Definition xScratchAxis (ab : AxisBox) : Axis.AxisProps :=
  {| Axis.scale :=
       scaleWithRange (currentXAxisSpec ab)
                      (0, Bounds.width (bounds (props ab)));
     Axis.labelText := label (currentXAxisSpec ab);
     Axis.fontSize := fontSize (props ab) |}.

(** The props of the scratch [VerticalAxis] of [yAxisWidth]. *)
Definition yScratchAxis (ab : AxisBox) : Axis.AxisProps :=
  {| Axis.scale :=
       scaleWithRange (currentYAxisSpec ab)
                      (0, Bounds.height (bounds (props ab)));
     Axis.labelText := label (currentYAxisSpec ab);
     Axis.fontSize := fontSize (props ab) |}.

Definition xAxisHeight (ab : AxisBox) : Q := Axis.height (xScratchAxis ab).

Definition yAxisWidth (ab : AxisBox) : Q := Axis.width (yScratchAxis ab).

Definition innerBounds (ab : AxisBox) : Bounds.t :=
  Bounds.padLeft (Bounds.padBottom (bounds (props ab)) (xAxisHeight ab))
                 (yAxisWidth ab).

Definition xScale (ab : AxisBox) : AxisScale :=
  scaleWithRange (currentXAxisSpec ab) (Bounds.xRange (innerBounds ab)).

Definition yScale (ab : AxisBox) : AxisScale :=
  scaleWithRange (currentYAxisSpec ab) (Bounds.yRange (innerBounds ab)).

Definition horizontalAxis (ab : AxisBox) : Axis.AxisProps :=
  {| Axis.scale := xScale ab;
     Axis.labelText := label (currentXAxisSpec ab);
     Axis.fontSize := fontSize (props ab) |}.

Definition verticalAxis (ab : AxisBox) : Axis.AxisProps :=
  {| Axis.scale := yScale ab;
     Axis.labelText := label (currentYAxisSpec ab);
     Axis.fontSize := fontSize (props ab) |}.

End Sizing.

End AxisBox.

(** ** ScaleSelector.tsx: repeated clicks and the position of the control *)

Module ScaleSelectorMore.

(** The scale type after [n] clicks, when every click makes the value
    it selects the current scale type (as the direct assignment does,
    and as the callbacks are meant to); [None] once a click selects
    [undefined]. *)
Fixpoint afterClicks (n : nat) (opts : list ScaleType) (cur : ScaleType)
  : option ScaleType :=
  match n with
  | O => Some cur
  | S n' =>
      match ScaleSelector.newValue opts cur with
      | Some v => afterClicks n' opts v
      | None => None
      end
  end.

(** [private componentWidth = 95] *)
Definition componentWidth : Q := 95.

(** The getter [maxX]: [this.props.maxX || 0]. *)
Definition maxX (propsMaxX : option Q) : Q :=
  match propsMaxX with
  | Some m => if Qeq_bool m 0 then 0 else m
  | None => 0
  end.

(** [getLeftShiftIfNeeded(xPosition)] *)
Definition getLeftShiftIfNeeded (propsMaxX : option Q) (xPosition : Q) : Q :=
  if Qeq_bool (maxX propsMaxX) 0 then 0
  else
    let overflow := maxX propsMaxX - (xPosition + componentWidth) in
    if Qltb overflow 0 then Qabs overflow else 0.

(** [style.left] of the rendered control. *)
Definition styleLeft (propsMaxX : option Q) (x : Q) : Q :=
  x - getLeftShiftIfNeeded propsMaxX x.

End ScaleSelectorMore.

(** ** AxisSpec.ts, the revision with optional constrained bounds

    In this revision of [AxisRuntime] the constrained bounds are
    [undefined] when unset or log-invalid, [isOutsideDomain] skips an
    undefined bound, and [toSpec] fills the gaps in with [??]. *)

Module AxisSpecOptional.

Definition constrainedMin (r : AxisSpec.AxisRuntime) : option number :=
  if ScaleType_eqb (AxisSpec.scaleType r) log
     && Num.leb (Num.or_default (AxisSpec.min r) (Fin 0)) (Fin 0)
  then None
  else AxisSpec.min r.

Definition constrainedMax (r : AxisSpec.AxisRuntime) : option number :=
  if ScaleType_eqb (AxisSpec.scaleType r) log
     && Num.leb (Num.or_default (AxisSpec.max r) (Fin 0)) (Fin 0)
  then None
  else AxisSpec.max r.

Definition isOutsideDomain (r : AxisSpec.AxisRuntime) (value : number) : bool :=
  match constrainedMin r with
  | Some m => Num.ltb value m
  | None => false
  end
  || match constrainedMax r with
     | Some m => Num.gtb value m
     | None => false
     end.

Definition domain (r : AxisSpec.AxisRuntime) : option number * option number :=
  (constrainedMin r, constrainedMax r).

Definition toSpec (r : AxisSpec.AxisRuntime) (defaultDomain : number * number)
  : AxisSpec.AxisSpec :=
  {| AxisSpec.spec_label := AxisSpec.label r;
     AxisSpec.domain_of :=
       (Num.min (Num.nullish (fst (domain r)) PosInf) (fst defaultDomain),
        Num.max (Num.nullish (snd (domain r)) NegInf) (snd defaultDomain));
     AxisSpec.spec_scaleType := AxisSpec.scaleType r;
     AxisSpec.spec_scaleTypeOptions := AxisSpec.scaleTypeOptions r |}.

End AxisSpecOptional.

(** ** AxisBox.tsx: the views around the two axes *)

Module AxisViews.

(** [showControls] of [VerticalAxisBox] and of [HorizontalAxisBox]:
    [isInteractive && scale.scaleTypeOptions.length > 1]. *)
Definition showControls (isInteractive : bool) (scaleTypeOptions : list ScaleType)
  : bool :=
  isInteractive && (1 <? length scaleTypeOptions)%nat.

(** The position and [maxX] handed to the [ScaleSelector] of a
    [VerticalAxisBox]; [undefined] when the controls are not shown. *)
Definition verticalControls (isInteractive : bool) (bounds : Bounds.t)
           (s : AxisScale) : option (Q * Q * option Q) :=
  if showControls isInteractive (scale_scaleTypeOptions s)
  then Some (Bounds.left bounds, Bounds.top bounds - 34, None)
  else None.

(** The same for a [HorizontalAxisBox], which passes its [maxX] on. *)
Definition horizontalControls (isInteractive : bool) (bounds : Bounds.t)
           (s : AxisScale) (maxX : option Q) : option (Q * Q * option Q) :=
  if showControls isInteractive (scale_scaleTypeOptions s)
  then Some (Bounds.right bounds, Bounds.bottom bounds, maxX)
  else None.

(** [scale.clone({ range })] *)
Definition clone (s : AxisScale) (r : Q * Q) : AxisScale :=
  {| scale_label := scale_label s;
     scale_domain := scale_domain s;
     scale_scaleType := scale_scaleType s;
     scale_scaleTypeOptions := scale_scaleTypeOptions s;
     hideFractionalTicks := hideFractionalTicks s;
     hideGridlines := hideGridlines s;
     range := r |}.

(** The orientation of [AxisGridLines]: ["left"] draws horizontal
    lines for the y axis, ["bottom"] vertical lines for the x axis. *)
Inductive Orient : Type := OrientLeft | OrientBottom.

(** The scale that [AxisGridLines.render] places its lines with. *)
Definition gridScale (orient : Orient) (s : AxisScale) (bounds : Bounds.t)
  : AxisScale :=
  clone s match orient with
          | OrientLeft => Bounds.yRange bounds
          | OrientBottom => Bounds.xRange bounds
          end.

(** The colour and the dash pattern of the grid line of a tick. *)
Definition gridColor (t : Tickmark) : string :=
  if faint t then "#eee"%string
  else if Qeq_bool (value t) 0 then "#ccc"%string
  else "#d3d3d3"%string.

Definition gridDash (t : Tickmark) : option string :=
  if Qeq_bool (value t) 0 then None else Some "3,2"%string.

(** The pixel at which the grid line of each tick of the scale is
    drawn: its [y1 = y2] for ["left"], its [x1 = x2] for ["bottom"]. *)
Definition gridLinePositions `{Collaborators} (orient : Orient) (s : AxisScale)
           (bounds : Bounds.t) : list Q :=
  List.map (fun t => place (gridScale orient s bounds) (value (obj t)))
           (getTickValues (gridScale orient s bounds)).

(** [tickMarkXPositions] of the [AxisTickMarks] of a
    [HorizontalAxisBox]: [ticks.map(tick => scale.place(tick))]. *)
Definition tickMarkXPositions `{Collaborators} (props : Axis.AxisProps) : list Q :=
  List.map (place (Axis.scale props)) (Axis.ticks Axis.Horizontal props).

(** The [y] of the tick labels of a [VerticalAxisBox]:
    [ticks.map(tick => ... y={scale.place(tick)} ...)]. *)
Definition tickLabelYPositions `{Collaborators} (props : Axis.AxisProps) : list Q :=
  List.map (place (Axis.scale props)) (Axis.ticks Axis.Vertical props).

(** The grid lines that [AxisBoxView.render] draws for one of the two
    scales of the axis box: none when the scale hides them, else those
    of [AxisGridLines] over the inner bounds. *)
Definition viewGridLines `{Collaborators} (orient : Orient) (ab : AxisBox.AxisBox)
  : list Q :=
  let s := match orient with
           | OrientLeft => AxisBox.yScale ab
           | OrientBottom => AxisBox.xScale ab
           end in
  if hideGridlines s then []
  else gridLinePositions orient s (AxisBox.innerBounds ab).

End AxisViews.

(** ** lodash on arrays of primitive values

    [uniq], [intersection], [without] and [Array.prototype.includes]
    compare with SameValueZero, which on strings (and on [undefined])
    is equality of values: [eqb] below. *)

Module LodashValues.

Section WithEquality.

Context {A : Type} (eqb : A -> A -> bool).

(** [l.includes(x)] *)
Definition includes (l : list A) (x : A) : bool := existsb (eqb x) l.

(** [uniq(l)]: the first occurrence of every value. *)
Fixpoint uniq (l : list A) : list A :=
  match l with
  | [] => []
  | x :: l' => x :: List.filter (fun y => negb (eqb y x)) (uniq l')
  end.

(** [intersection(a, b)]: the unique values of [a] that occur in [b],
    in the order of [a]. *)
Definition intersection (a b : list A) : list A :=
  uniq (List.filter (includes b) a).

(** [without(a, ...values)] *)
Definition without (a values : list A) : list A :=
  List.filter (fun x => negb (includes values x)) a.

End WithEquality.

(** [compact] and [excludeUndefined] on an array whose only falsy
    elements are [undefined]. *)
Fixpoint excludeUndefined {A} (l : list (option A)) : list A :=
  match l with
  | [] => []
  | Some x :: l' => x :: excludeUndefined l'
  | None :: l' => excludeUndefined l'
  end.

(** Equality of two optional strings, and of two optional objects. *)
Definition option_eqb {A} (eqb : A -> A -> bool) (a b : option A) : bool :=
  match a, b with
  | Some x, Some y => eqb x y
  | None, None => true
  | _, _ => false
  end.

Definition same_object {A} (a b : Obj A) : bool := (addr a =? addr b)%nat.

End LodashValues.

(** ** ScatterPlot.tsx *)

(** Modelled from the spec: [padRight(amount)] of the missing [Bounds]
    class, which the spec lists beside [padLeft]: it takes [amount]
    away from the right side. *)
Definition Bounds_padRight (b : Bounds.t) (amount : Q) : Bounds.t :=
  Bounds.mk (Bounds.x b) (Bounds.y b) (Bounds.width b - amount) (Bounds.height b).

Module ScatterPlot.

(** The fields of a [ScatterValue] and of a [ScatterSeries]
    ([PointsWithLabels], not among the sources) that [ScatterPlot.tsx]
    reads; [time] is flattened into [time_x], [time_y] and [time_span]. *)
Record ScatterValue : Type := {
  sv_x : Q;
  sv_y : Q;
  time_x : Q;
  time_y : Q;
  time_span : option (Q * Q)
}.

Record ScatterSeries : Type := {
  entityName : string;
  color : string;
  label : string;
  values : list (Obj ScatterValue)
}.

(** A bin of [colorScale.legendData], and an entry of the legend. *)
Record LegendBin : Type := { bin_label : option string; bin_color : string }.

Record Colorable : Type := {
  col_key : string;
  col_label : string;
  col_color : string
}.

(** *** The sidebar *)

Definition sidebarMinWidth (bounds : Bounds.t) : Q :=
  Qmax (Bounds.width bounds * 0.1) 60.

Definition sidebarMaxWidth (bounds : Bounds.t) : Q :=
  Qmax (Bounds.width bounds * 0.2) (sidebarMinWidth bounds).

(** [sidebarWidth], for a legend of width [legendWidth]. *)
Definition sidebarWidth (bounds : Bounds.t) (legendWidth : Q) : Q :=
  Qmax (Qmin legendWidth (sidebarMaxWidth bounds)) (sidebarMinWidth bounds).

(** The bounds handed to the [DualAxis]:
    [this.bounds.padRight(this.sidebarWidth + 20)]. *)
Definition dualAxisBounds (bounds : Bounds.t) (legendWidth : Q) : Bounds.t :=
  Bounds_padRight bounds (sidebarWidth bounds legendWidth + 20).

(** The [x] at which the legend, the arrow legend and the tooltip are
    rendered: [bounds.right - sidebarWidth]. *)
Definition sidebarX (bounds : Bounds.t) (legendWidth : Q) : Q :=
  Bounds.right bounds - sidebarWidth bounds legendWidth.

(** *** Colours in use *)

Section Colours.

(** The colour values of the points are of a type of their own;
    [colorScale.getColor] maps them to colours, or to [undefined]. *)
Context {ColorValue : Type} (getColor : ColorValue -> option string).

(** [colorsInUse], from the colour values of [transform.allPoints]. *)
Definition colorsInUse (pointColors : list ColorValue) : list string :=
  LodashValues.excludeUndefined
    (LodashValues.uniq (LodashValues.option_eqb String.eqb)
                       (List.map getColor pointColors)).

(** [bin.label ?? ""] *)
Definition label_or_empty (l : option string) : string :=
  match l with
  | Some s => s
  | None => EmptyString
  end.

(** The [colorables] of the legend. *)
Definition colorables (legendData : list LegendBin) (pointColors : list ColorValue)
  : list Colorable :=
  List.map (fun bin => {| col_key := label_or_empty (bin_label bin);
                          col_label := label_or_empty (bin_label bin);
                          col_color := bin_color bin |})
           (List.filter (fun bin => LodashValues.includes
                                      String.eqb (colorsInUse pointColors)
                                      (bin_color bin))
                        legendData).

End Colours.

(** *** Selection by the legend *)

(** The entity names of the series of one colour:
    [currentData.filter(g => g.color === c).map(g => g.entityName)]. *)
Definition keysOfColor (currentData : list ScatterSeries) (c : string)
  : list string :=
  List.map entityName
           (List.filter (fun g => String.eqb (color g) c) currentData).

(** [intersection(keys, selectedKeys).length === keys.length] *)
Definition allKeysActive (keys selectedKeys : list string) : bool :=
  (length (LodashValues.intersection String.eqb keys selectedKeys)
   =? length keys)%nat.

(** [onLegendClick]: the list handed to [table.setSelectedEntities],
    or [None] when the handler returns without calling it. *)
Definition onLegendClick (addCountryModeDisabled : bool)
           (hoverColor : option string)
           (currentData : list ScatterSeries) (selectedKeys : list string)
  : option (list string) :=
  match hoverColor with
  | Some c =>
      if addCountryModeDisabled then None
      else
        let keysToToggle := keysOfColor currentData c in
        if allKeysActive keysToToggle selectedKeys
        then Some (LodashValues.without String.eqb selectedKeys keysToToggle)
        else Some (LodashValues.uniq String.eqb (selectedKeys ++ keysToToggle))
  | None => None
  end.

(** [focusColors]: the colours in use all of whose series are
    selected. *)
Definition focusColors (colorsInUse : list string)
           (currentData : list ScatterSeries) (selectedKeys : list string)
  : list string :=
  List.filter (fun c => allKeysActive (keysOfColor currentData c) selectedKeys)
              colorsInUse.

(** [hoverKeys] *)
Definition hoverKeys (hoverColor hoverKey : option string)
           (currentData : list ScatterSeries) : list string :=
  match hoverColor with
  | Some c => LodashValues.uniq String.eqb (keysOfColor currentData c)
  | None => []
  end
  ++ match hoverKey with
     | Some key => [key]
     | None => []
     end.

(** [tooltipSeries] *)
Definition tooltipSeries (hoverKey : option string) (focusKeys : list string)
           (currentData : list ScatterSeries) : option ScatterSeries :=
  match hoverKey with
  | Some key => List.find (fun g => String.eqb (entityName g) key) currentData
  | None =>
      match focusKeys with
      | [key] => List.find (fun g => String.eqb (entityName g) key) currentData
      | _ => None
      end
  end.

(** *** The tooltip *)

(** An element of the array [elements] of [ScatterTooltip.render]: a
    position and the props of its [TextWrap]. *)
Record TooltipElement : Type := {
  el_x : Q;
  el_y : Q;
  el_maxWidth : Q;
  el_fontSize : Q;
  el_text : string
}.

Section Tooltip.

(** The formatters of the two columns and the height of a wrapped
    text are not among the sources. *)
Variables (yFormatValue xFormatValue yFormatTime xFormatTime : Q -> string)
          (wrapHeight : Q -> Q -> string -> Q).

Definition formatValueY (v : ScatterValue) : string :=
  ("Y Axis: " ++ yFormatValue (sv_y v))%string.

Definition formatValueX (v : ScatterValue) : string :=
  let s := ("X Axis: " ++ xFormatValue (sv_x v))%string in
  match time_span v with
  | None =>
      if negb (Qeq_bool (time_y v) (time_x v))
      then (s ++ " (data from " ++ xFormatTime (time_x v) ++ ")")%string
      else s
  | Some _ => s
  end.

(** [wrap.height] of an element. *)
Definition el_height (e : TooltipElement) : Q :=
  wrapHeight (el_maxWidth e) (el_fontSize e) (el_text e).

(** [compact(uniq([first(values), last(values)]))] *)
Definition tooltipValues (vs : list (Obj ScatterValue)) : list (Obj ScatterValue) :=
  LodashValues.excludeUndefined
    (LodashValues.uniq (LodashValues.option_eqb LodashValues.same_object)
                       [head vs; last vs]).

(** The text of the line that dates a value. *)
Definition yearText (v : ScatterValue) : string :=
  match time_span v with
  | Some (a, b) => (yFormatTime a ++ " to " ++ yFormatTime b)%string
  | None => yFormatTime (time_y v)
  end.

(** One turn of [values.forEach]: from the offset reached and the
    elements pushed so far to the next ones. *)
Definition addValue (x y maxWidth fontSize : Q)
           (acc : Q * list TooltipElement) (v : Obj ScatterValue)
  : Q * list TooltipElement :=
  let '(offset, elements) := acc in
  let year := {| el_x := x; el_y := y + offset; el_maxWidth := maxWidth;
                 el_fontSize := 0.65 * fontSize; el_text := yearText (obj v) |} in
  let offset1 := offset + el_height year in
  let line1 := {| el_x := x; el_y := y + offset1; el_maxWidth := maxWidth;
                  el_fontSize := 0.55 * fontSize;
                  el_text := formatValueY (obj v) |} in
  let offset2 := offset1 + el_height line1 in
  let line2 := {| el_x := x; el_y := y + offset2; el_maxWidth := maxWidth;
                  el_fontSize := 0.55 * fontSize;
                  el_text := formatValueX (obj v) |} in
  (offset2 + (el_height line2 + 5), elements ++ [year; line1; line2]).

(** The array [elements] that [render] builds for a series. *)
Definition tooltipElements (x y maxWidth fontSize : Q) (series : ScatterSeries)
  : list TooltipElement :=
  let lineHeight := 5 in
  let heading := {| el_x := x; el_y := y + 0; el_maxWidth := maxWidth;
                    el_fontSize := 0.75 * fontSize; el_text := label series |} in
  snd (foldl (addValue x y maxWidth fontSize)
             (0 + (el_height heading + lineHeight), [heading])
             (tooltipValues (values series))).

End Tooltip.

End ScatterPlot.

(** ** Vocabulary of the statements *)

(** Componentwise equality of two domains, as rational numbers. *)
Definition domain_eq (d1 d2 : Q * Q) : Prop :=
  fst d1 == fst d2 /\ snd d1 == snd d2.

(** Linear interpolation from [a] towards [b] with factor [t]. *)
Definition lerp (a b t : Q) : Q := a + (b - a) * t.

Definition lerp_domain (prev target : Q * Q) (t : Q) : Q * Q :=
  (lerp (fst prev) (fst target) t, lerp (snd prev) (snd target) t).

(** A domain [d] contains the domain [d0]. *)
Definition contains_domain (d d0 : number * number) : Prop :=
  Num.leb (fst d) (fst d0) = true /\ Num.geb (snd d) (snd d0) = true.

(** [i] is the index of the first occurrence of [v] in [l]. *)
Definition first_index {A} (l : list A) (v : A) (i : nat) : Prop :=
  l !! i = Some v /\ forall k, (k < i)%nat -> l !! k <> Some v.

(** The reading of the horizontal overlap test where both rectangles
    are shrunk by 5px of horizontal padding before they are compared. *)
Definition intersects_both_padded (b1 b2 : Bounds.t) : bool :=
  Bounds.intersects (Bounds.padWidth b1 (-5)) (Bounds.padWidth b2 (-5)).


(** The instance with another y axis (spec and animation end points),
    respectively another x axis. *)
Definition withYAxis (ab : AxisBox.AxisBox) (spec : AxisBox.AxisSpec)
           (prev target : Q * Q) : AxisBox.AxisBox :=
  {| AxisBox.props :=
       {| AxisBox.bounds := AxisBox.bounds (AxisBox.props ab);
          AxisBox.fontSize := AxisBox.fontSize (AxisBox.props ab);
          AxisBox.xAxisSpec := AxisBox.xAxisSpec (AxisBox.props ab);
          AxisBox.yAxisSpec := spec |};
     AxisBox.targetYDomain := target;
     AxisBox.targetXDomain := AxisBox.targetXDomain ab;
     AxisBox.prevYDomain := prev;
     AxisBox.prevXDomain := AxisBox.prevXDomain ab;
     AxisBox.animProgress := AxisBox.animProgress ab;
     AxisBox.frameStart := AxisBox.frameStart ab |}.

Definition withXAxis (ab : AxisBox.AxisBox) (spec : AxisBox.AxisSpec)
           (prev target : Q * Q) : AxisBox.AxisBox :=
  {| AxisBox.props :=
       {| AxisBox.bounds := AxisBox.bounds (AxisBox.props ab);
          AxisBox.fontSize := AxisBox.fontSize (AxisBox.props ab);
          AxisBox.xAxisSpec := spec;
          AxisBox.yAxisSpec := AxisBox.yAxisSpec (AxisBox.props ab) |};
     AxisBox.targetYDomain := AxisBox.targetYDomain ab;
     AxisBox.targetXDomain := target;
     AxisBox.prevYDomain := AxisBox.prevYDomain ab;
     AxisBox.prevXDomain := prev;
     AxisBox.animProgress := AxisBox.animProgress ab;
     AxisBox.frameStart := AxisBox.frameStart ab |}.

(** A candidate at the value [v] with the given priority, flagged as
    first or last tick, occurs in [l]. *)
Definition has_endpoint_candidate (l : list Tickmark) (v prio : Q) : Prop :=
  exists t, In t l /\ value t == v /\ priority t == prio
            /\ isFirstOrLastTick t = true.

(** No two entries of [l] have the same tick value. *)
Definition distinct_values (l : list Tickmark) : Prop :=
  forall i j t t', i <> j -> l !! i = Some t -> l !! j = Some t' ->
                   ~ value t == value t'.

(** [ps'] is a later state of the placements [ps] during the pass:
    the same ticks and bounds at every index, and whatever was hidden
    is still hidden. *)
Definition evolves (ps ps' : list Axis.TickPlacement) : Prop :=
  length ps' = length ps
  /\ forall i t, ps !! i = Some t ->
       exists t', ps' !! i = Some t'
                  /\ Axis.tick t' = Axis.tick t
                  /\ Axis.bounds t' = Axis.bounds t
                  /\ (Axis.isHidden t = true -> Axis.isHidden t' = true).

(** The placements at the indices [i] and [j] do not both survive
    while their bounds intersect. *)
Definition resolved (k : Axis.Kind) (ps : list Axis.TickPlacement)
           (i j : nat) : Prop :=
  forall t1 t2, ps !! i = Some t1 -> ps !! j = Some t2 ->
    Axis.isHidden t1 = false -> Axis.isHidden t2 = false ->
    Axis.doIntersect k (Axis.bounds t1) (Axis.bounds t2) = false.

(** Every hidden placement is hidden by a placement that survives, that
    precedes it, and whose index is below [bound]. *)
Definition justified (k : Axis.Kind) (bound : nat)
           (ps : list Axis.TickPlacement) : Prop :=
  forall j t2, ps !! j = Some t2 -> Axis.isHidden t2 = true ->
    exists i t1, (i < j)%nat /\ (i < bound)%nat
                 /\ ps !! i = Some t1 /\ Axis.isHidden t1 = false
                 /\ Axis.doIntersect k (Axis.bounds t1) (Axis.bounds t2) = true.

(** [l] is ascending in [key]: each element is at most every later
    one. *)
Fixpoint ascending {A} (key : A -> Q) (l : list A) : Prop :=
  match l with
  | [] => True
  | a :: l' => (forall x, In x l' -> key a <= key x) /\ ascending key l'
  end.

(** ** Sample inputs *)

(** Collaborators for a scale that generates the tick candidates [ts],
    places a value at the pixel of the same number, and measures every
    tick label as a box of [labelW] by 10 pixels. *)
Definition sampleCollaborators (ts : list (Obj Tickmark)) (labelW : Q)
  : Collaborators :=
  {| getTickValues := fun _ => ts;
     getFormattedTicks := fun _ => [];
     tickFormat := fun _ _ _ => EmptyString;
     place := fun _ v => v;
     rangeSize := fun s => snd (range s) - fst (range s);
     forText := fun _ _ => Bounds.mk 0 0 labelW 10;
     textWrapHeight := fun _ _ _ => 0 |}.

(** The props of an unlabelled axis over the domain [d] and the pixel
    range [0, 400]. *)
Definition sampleAxis (st : ScaleType) (d : Q * Q) (hideFractional : bool)
  : Axis.AxisProps :=
  {| Axis.scale :=
       {| scale_label := EmptyString;
          scale_domain := d;
          scale_scaleType := st;
          scale_scaleTypeOptions := [st];
          hideFractionalTicks := hideFractional;
          hideGridlines := false;
          range := (0, 400) |};
     Axis.labelText := EmptyString;
     Axis.fontSize := 16 |}.

(** An ordinary tick candidate. *)
Definition plainTick (v prio : Q) : Tickmark :=
  {| value := v; priority := prio;
     faint := false; gridLineOnly := false; isFirstOrLastTick := false |}.

(** Three tick candidates 20 pixels apart, the middle one of lesser
    importance, under labels 30 pixels wide. *)
Definition crowdedTicks : list (Obj Tickmark) :=
  [mkObj 0 (plainTick 0 1); mkObj 1 (plainTick 20 2); mkObj 2 (plainTick 40 1)].

Definition crowdedScale : Collaborators := sampleCollaborators crowdedTicks 30.

Definition crowdedAxis : Axis.AxisProps :=
  sampleAxis linear (1 # 2, 81 # 2) false.

(** The placements of the crowded candidates on a horizontal axis, in
    priority order (0, 40, 20), and what the collision pass makes of
    them. *)
Definition crowdedPlacements : list Axis.TickPlacement :=
  @Axis.tickPlacements crowdedScale Axis.Horizontal crowdedAxis.

Definition crowdedResult : list Axis.TickPlacement :=
  Axis.collisionPass Axis.Horizontal crowdedPlacements.

(** A scale that generates no tick at all, one that generates the
    decades 10 and 100, and one that generates a single tick at 0. *)
Definition noTicksScale : Collaborators := sampleCollaborators [] 30.

Definition decadeScale : Collaborators :=
  sampleCollaborators [mkObj 0 (plainTick 10 3); mkObj 1 (plainTick 100 3)] 30.

Definition zeroTickScale : Collaborators :=
  sampleCollaborators [mkObj 0 (plainTick 0 3)] 30.

(** A log axis configured with the invalid bounds [min = -3] and
    [max = 0]. *)
Definition invalidLogRuntime : AxisSpec.AxisRuntime :=
  {| AxisSpec.min := Some (Fin (-3));
     AxisSpec.max := Some (Fin 0);
     AxisSpec.scaleType := log;
     AxisSpec.canChangeScaleType := false;
     AxisSpec.label := EmptyString |}.

(** An axis spec of the given scale type and domain, without label. *)
Definition sampleSpec (st : ScaleType) (d : Q * Q) : AxisBox.AxisSpec :=
  {| AxisBox.label := EmptyString;
     AxisBox.domain := d;
     AxisBox.scaleType := st;
     AxisBox.scaleTypeOptions := [st];
     AxisBox.spec_hideFractionalTicks := false;
     AxisBox.spec_hideGridlines := false |}.

(** An axis box of 400 by 300 pixels whose two axes animate from the
    domain [prev] to the domain [target]. *)
Definition sampleBox (st : ScaleType) (prev target : Q * Q)
           (anim start : option Q) : AxisBox.AxisBox :=
  {| AxisBox.props :=
       {| AxisBox.bounds := Bounds.mk 0 0 400 300;
          AxisBox.fontSize := 16;
          AxisBox.xAxisSpec := sampleSpec st target;
          AxisBox.yAxisSpec := sampleSpec st target |};
     AxisBox.targetYDomain := target;
     AxisBox.targetXDomain := target;
     AxisBox.prevYDomain := prev;
     AxisBox.prevXDomain := prev;
     AxisBox.animProgress := anim;
     AxisBox.frameStart := start |}.

(** A selector over the options [linear; log] without callbacks. *)
Definition toggleConfig (cur : ScaleType) : ScaleSelector.ScaleTypeConfig :=
  {| ScaleSelector.scaleType := cur;
     ScaleSelector.scaleTypeOptions := [linear; log];
     ScaleSelector.updateChartScaleType := false |}.

Definition toggleProps (cur : ScaleType) : ScaleSelector.ScaleSelectorOptions :=
  {| ScaleSelector.scaleTypeConfig := toggleConfig cur;
     ScaleSelector.onScaleTypeChange := false |}.

(** An axis configuration without bounds. *)
Definition unboundedRuntime (st : ScaleType) : AxisSpec.AxisRuntime :=
  {| AxisSpec.min := None;
     AxisSpec.max := None;
     AxisSpec.scaleType := st;
     AxisSpec.canChangeScaleType := false;
     AxisSpec.label := EmptyString |}.

(** A linear axis configuration whose [min] is the number [NaN]. *)
Definition nanMinRuntime : AxisSpec.AxisRuntime :=
  {| AxisSpec.min := Some NaN;
     AxisSpec.max := None;
     AxisSpec.scaleType := linear;
     AxisSpec.canChangeScaleType := false;
     AxisSpec.label := EmptyString |}.

(** The first frame of a tween of log axes from [1, 100], respectively
    from [0, 100], to [1, 500]. *)
Definition logTweenStart : AxisBox.AxisBox :=
  sampleBox log (1, 100) (1, 500) (Some 0) None.

Definition logTweenFromZero : AxisBox.AxisBox :=
  sampleBox log (0, 100) (1, 500) (Some 0) None.


Definition midwayTween : AxisBox.AxisBox :=
  sampleBox linear (1, 100) (1, 500) (Some 0.5) (Some 1000).

(** ** Further vocabulary and sample inputs *)

(** The scale type that is not [st]. *)
Definition otherScaleType (st : ScaleType) : ScaleType :=
  match st with
  | linear => log
  | log => linear
  end.

(** A number is strictly positive, possibly infinite. *)
Definition positive (a : number) : Prop := Num.ltb (Fin 0) a = true.

(** An axis configuration with the same bounds and scale type in the
    earlier revision of the file. *)
Definition asLegacy (r : AxisSpec.AxisRuntime) : AxisSpecLegacy.AxisRuntime :=
  {| AxisSpecLegacy.min := AxisSpec.min r;
     AxisSpecLegacy.max := AxisSpec.max r;
     AxisSpecLegacy.scaleType := AxisSpec.scaleType r;
     AxisSpecLegacy.canChangeScaleType := AxisSpec.canChangeScaleType r;
     AxisSpecLegacy.label := Some (AxisSpec.label r) |}.

(** A linear axis configured with the bounds [0] and [10]. *)
Definition boundedRuntime : AxisSpec.AxisRuntime :=
  {| AxisSpec.min := Some (Fin 0);
     AxisSpec.max := Some (Fin 10);
     AxisSpec.scaleType := linear;
     AxisSpec.canChangeScaleType := true;
     AxisSpec.label := EmptyString |}.


(** A box whose linear axes, configured for [1, 500], are half-way
    from [1, 100] to the earlier target [1, 300]. *)
Definition redirectedTween : AxisBox.AxisBox :=
  {| AxisBox.props := AxisBox.props midwayTween;
     AxisBox.targetYDomain := (1, 300);
     AxisBox.targetXDomain := (1, 300);
     AxisBox.prevYDomain := (1, 100);
     AxisBox.prevXDomain := (1, 100);
     AxisBox.animProgress := Some 0.5;
     AxisBox.frameStart := Some 1000 |}.

(** Three series, two of them red, and a selection of all three. *)
Definition sampleSeries (name col : string) : ScatterPlot.ScatterSeries :=
  {| ScatterPlot.entityName := name;
     ScatterPlot.color := col;
     ScatterPlot.label := name;
     ScatterPlot.values := [] |}.

Definition scatterData : list ScatterPlot.ScatterSeries :=
  [sampleSeries "A" "red"; sampleSeries "B" "red"; sampleSeries "C" "blue"]%string.

Definition allSelected : list string := ["A"; "B"; "C"]%string.

(** ** Facts about the scale selector *)

Lemma ScaleType_eqb_eq a b : ScaleType_eqb a b = true <-> a = b.
Proof. destruct a, b; simpl; split; congruence. Qed.

Lemma ScaleType_eqb_neq a b : ScaleType_eqb a b = false <-> a <> b.
Proof. destruct a, b; simpl; split; congruence. Qed.

Lemma indexOf_first (l : list ScaleType) v i :
  first_index l v i -> ScaleSelector.indexOf l v = Z.of_nat i.
Proof.
  revert i. induction l as [|a l IH]; intros i [Hi Hfirst].
  - discriminate.
  - simpl. destruct i as [|i].
    + simpl in Hi. injection Hi as ->.
      now rewrite (proj2 (ScaleType_eqb_eq v v) eq_refl).
    + assert (Ha : ScaleType_eqb a v = false).
      { apply ScaleType_eqb_neq. intros ->.
        apply (Hfirst 0%nat); [lia | reflexivity]. }
      rewrite Ha.
      rewrite (IH i).
      * destruct (Z.ltb_spec (Z.of_nat i) 0); lia.
      * split; [exact Hi|].
        intros k Hk. apply (Hfirst (S k)). lia.
Qed.

Lemma nextScaleTypeIndex_first (l : list ScaleType) v i :
  first_index l v i ->
  ScaleSelector.nextScaleTypeIndex l v = Z.of_nat ((i + 1) mod length l).
Proof.
  intros Hfi. unfold ScaleSelector.nextScaleTypeIndex.
  rewrite (indexOf_first l v i Hfi).
  destruct Hfi as [Hi _]. apply lookup_lt_Some in Hi.
  destruct (Z.geb_spec (Z.of_nat i + 1) (Z.of_nat (length l))) as [Hge|Hlt].
  - assert (i + 1 = length l)%nat as -> by lia.
    rewrite Nat.Div0.mod_same. reflexivity.
  - rewrite Nat.mod_small by lia. lia.
Qed.

(** C8.  When the current scale type sits at index [i] of the options
    (the index [indexOf] finds, its first occurrence), a click selects
    the option at index [(i + 1) mod length]: the next allowed type,
    wrapping to the first after the last.  The selected value is the
    one handed to whichever callback is present, or assigned. *)
Theorem onClick_selects_next (p : ScaleSelector.ScaleSelectorOptions) (i : nat) :
  let cfg := ScaleSelector.scaleTypeConfig p in
  let opts := ScaleSelector.scaleTypeOptions cfg in
  first_index opts (ScaleSelector.scaleType cfg) i ->
  ScaleSelector.selected (ScaleSelector.onClick p)
  = opts !! ((i + 1) mod length opts)
  /\ is_Some (ScaleSelector.selected (ScaleSelector.onClick p)).
Proof.
  intros cfg opts Hfi.
  assert (Hsel : ScaleSelector.selected (ScaleSelector.onClick p)
                 = ScaleSelector.newValue opts (ScaleSelector.scaleType cfg)).
  { unfold ScaleSelector.onClick. fold cfg. fold opts.
    destruct (ScaleSelector.onScaleTypeChange p);
      [|destruct (ScaleSelector.updateChartScaleType cfg)]; reflexivity. }
  assert (Hlen : (i < length opts)%nat)
    by (destruct Hfi as [Hi _]; now apply lookup_lt_Some in Hi).
  rewrite Hsel. unfold ScaleSelector.newValue, ScaleSelector.at_index.
  rewrite (nextScaleTypeIndex_first opts _ i Hfi).
  destruct (Z.ltb_spec (Z.of_nat ((i + 1) mod length opts)) 0); [lia|].
  rewrite Nat2Z.id. split; [reflexivity|].
  apply lookup_lt_is_Some. apply Nat.mod_upper_bound. lia.
Qed.

(** On the options [linear; log] a click from [linear] selects [log]
    and a click from [log] selects [linear] again; with no callback the
    selected type is assigned to the config, so two clicks restore it. *)
Lemma onClick_linear_log_toggle :
  ScaleSelector.selected (ScaleSelector.onClick (toggleProps linear)) = Some log
  /\ ScaleSelector.selected (ScaleSelector.onClick (toggleProps log)) = Some linear
  /\ ScaleSelector.onClick (toggleProps linear)
     = ScaleSelector.AssignScaleType (Some log)
  /\ ScaleSelector.assign (ScaleSelector.assign (toggleConfig linear) log) linear
     = toggleConfig linear.
Proof.
  split; [|split; [|split; reflexivity]].
  - refine (proj1 (onClick_selects_next (toggleProps linear) 0 _)).
    split; [reflexivity | intros k Hk; lia].
  - refine (proj1 (onClick_selects_next (toggleProps log) 1 _)).
    split; [reflexivity|].
    intros [|k] Hk; [simpl; congruence | lia].
Defined.

(** ** Facts about the axis configuration *)

Lemma Qle_bool_refl q : Qle_bool q q = true.
Proof. apply Qle_bool_iff, Qle_refl. Qed.

Lemma Qle_bool_total p q : Qle_bool p q = false -> Qle_bool q p = true.
Proof.
  intros Hpq. apply Qle_bool_iff.
  destruct (Qlt_le_dec p q) as [Hlt|Hle]; [|exact Hle].
  apply Qlt_le_weak, Qle_bool_iff in Hlt. congruence.
Qed.

Module NumFacts.

Lemma leb_refl a : a <> NaN -> Num.leb a a = true.
Proof. destruct a; simpl; try congruence; intros _. apply Qle_bool_refl. Qed.

Lemma leb_total a b :
  a <> NaN -> b <> NaN -> Num.leb a b = false -> Num.leb b a = true.
Proof.
  destruct a, b; simpl; try congruence; intros _ _. apply Qle_bool_total.
Qed.

Lemma min_not_NaN a b : a <> NaN -> b <> NaN -> Num.min a b <> NaN.
Proof.
  intros Ha Hb. destruct a, b; simpl; try congruence;
    match goal with |- context [if ?c then _ else _] => destruct c end;
    congruence.
Qed.

Lemma min_le_r a b : a <> NaN -> b <> NaN -> Num.leb (Num.min a b) b = true.
Proof.
  intros Ha Hb.
  assert (Hmin : Num.min a b = if Num.leb a b then a else b)
    by (destruct a, b; try congruence; reflexivity).
  rewrite Hmin. destruct (Num.leb a b) eqn:E; [exact E|].
  now apply leb_refl.
Qed.

Lemma max_ge_r a b : a <> NaN -> b <> NaN -> Num.geb (Num.max a b) b = true.
Proof.
  intros Ha Hb. unfold Num.geb.
  assert (Hmax : Num.max a b = if Num.leb a b then b else a)
    by (destruct a, b; try congruence; reflexivity).
  rewrite Hmax. destruct (Num.leb a b) eqn:E.
  - now apply leb_refl.
  - now apply leb_total.
Qed.

Lemma min_PosInf_l b : b <> NaN -> Num.min PosInf b = b.
Proof. destruct b; simpl; congruence. Qed.

Lemma max_NegInf_l b : b <> NaN -> Num.max NegInf b = b.
Proof. destruct b; simpl; congruence. Qed.

End NumFacts.

Lemma constrainedMin_not_NaN r :
  AxisSpec.min r <> Some NaN -> AxisSpec.constrainedMin r <> NaN.
Proof.
  intros Hmin. unfold AxisSpec.constrainedMin.
  destruct (_ && _); [congruence|].
  destruct (AxisSpec.min r) as [a|]; simpl; congruence.
Qed.

Lemma constrainedMax_not_NaN r :
  AxisSpec.max r <> Some NaN -> AxisSpec.constrainedMax r <> NaN.
Proof.
  intros Hmax. unfold AxisSpec.constrainedMax.
  destruct (_ && _); [congruence|].
  destruct (AxisSpec.max r) as [a|]; simpl; congruence.
Qed.

(** C10.  With both [min] and [max] left undefined, [constrainedMin] is
    [Infinity] and [constrainedMax] is [-Infinity], and
    [isOutsideDomain] answers [true] for every value that is not
    [NaN]. *)
Theorem isOutsideDomain_without_bounds (r : AxisSpec.AxisRuntime) (v : number) :
  AxisSpec.min r = None ->
  AxisSpec.max r = None ->
  v <> NaN ->
  AxisSpec.constrainedMin r = PosInf
  /\ AxisSpec.constrainedMax r = NegInf
  /\ AxisSpec.isOutsideDomain r v = true.
Proof.
  intros Hmin Hmax Hv.
  assert (Hcmin : AxisSpec.constrainedMin r = PosInf).
  { unfold AxisSpec.constrainedMin. rewrite Hmin. simpl.
    now destruct (_ && _). }
  assert (Hcmax : AxisSpec.constrainedMax r = NegInf).
  { unfold AxisSpec.constrainedMax. rewrite Hmax. simpl.
    now destruct (_ && _). }
  repeat split; try assumption.
  unfold AxisSpec.isOutsideDomain. rewrite Hcmin, Hcmax.
  destruct v; simpl; congruence.
Qed.

(** An unbounded configuration reports the finite value [5], and
    [Infinity] itself, as outside of its domain. *)
Lemma isOutsideDomain_without_bounds_at_5 :
  AxisSpec.isOutsideDomain (unboundedRuntime log) (Fin 5) = true
  /\ AxisSpec.isOutsideDomain (unboundedRuntime linear) PosInf = true.
Proof.
  split.
  - refine (proj2 (proj2 (isOutsideDomain_without_bounds
                            (unboundedRuntime log) (Fin 5) _ _ _)));
      [reflexivity | reflexivity | discriminate].
  - refine (proj2 (proj2 (isOutsideDomain_without_bounds
                            (unboundedRuntime linear) PosInf _ _ _)));
      [reflexivity | reflexivity | discriminate].
Defined.

(** C9, as stated, fails when a number is [NaN]: a linear config with
    [min = NaN] finalizes the default domain [0, 1] to [NaN, 1], and
    [NaN <= 0] is false. *)
Lemma toSpec_NaN_min_loses_default :
  AxisSpec.domain_of (AxisSpec.toSpec nanMinRuntime (Fin 0, Fin 1))
  = (NaN, Fin 1)
  /\ ~ contains_domain
         (AxisSpec.domain_of (AxisSpec.toSpec nanMinRuntime (Fin 0, Fin 1)))
         (Fin 0, Fin 1).
Proof.
  split; [reflexivity|].
  intros [Hlo _]. vm_compute in Hlo. discriminate.
Qed.

(** C9, amended.  When neither the configured bounds nor the default
    domain [a, b] contain [NaN], the domain [lo, hi] of the spec
    returned by [toSpec] satisfies [lo <= a] and [hi >= b], whatever
    the configured bounds and the scale type; a bound that is unset or
    log-invalid (constrained to an infinity) falls back to the default
    end point. *)
Theorem toSpec_contains_defaultDomain
        (r : AxisSpec.AxisRuntime) (defaultDomain : number * number) :
  AxisSpec.min r <> Some NaN ->
  AxisSpec.max r <> Some NaN ->
  fst defaultDomain <> NaN ->
  snd defaultDomain <> NaN ->
  let d := AxisSpec.domain_of (AxisSpec.toSpec r defaultDomain) in
  contains_domain d defaultDomain
  /\ (AxisSpec.constrainedMin r = PosInf -> fst d = fst defaultDomain)
  /\ (AxisSpec.constrainedMax r = NegInf -> snd d = snd defaultDomain).
Proof.
  intros Hmin Hmax Ha Hb d. subst d. simpl.
  pose proof (constrainedMin_not_NaN r Hmin) as Hcmin.
  pose proof (constrainedMax_not_NaN r Hmax) as Hcmax.
  split; [split|split].
  - now apply NumFacts.min_le_r.
  - now apply NumFacts.max_ge_r.
  - intros ->. now apply NumFacts.min_PosInf_l.
  - intros ->. now apply NumFacts.max_NegInf_l.
Qed.

(** A log axis configured with the invalid bounds [min = -3] and
    [max = 0] finalizes the default domain [2, 50] to itself. *)
Lemma toSpec_contains_defaultDomain_log :
  contains_domain
    (AxisSpec.domain_of (AxisSpec.toSpec invalidLogRuntime (Fin 2, Fin 50)))
    (Fin 2, Fin 50)
  /\ AxisSpec.domain_of (AxisSpec.toSpec invalidLogRuntime (Fin 2, Fin 50))
     = (Fin 2, Fin 50).
Proof.
  split; [|reflexivity].
  refine (proj1 (toSpec_contains_defaultDomain
                   invalidLogRuntime (Fin 2, Fin 50) _ _ _ _));
    simpl; discriminate.
Defined.

(** The earlier revision of [toSpec] contains the default domain under
    the same proviso ([defaultTo] even absorbs a [NaN] bound). *)
Lemma legacy_toSpec_contains_defaultDomain
      (r : AxisSpecLegacy.AxisRuntime) (defaultDomain : number * number) :
  fst defaultDomain <> NaN ->
  snd defaultDomain <> NaN ->
  contains_domain (AxisSpec.domain_of (AxisSpecLegacy.toSpec r defaultDomain))
                  defaultDomain.
Proof.
  intros Ha Hb. unfold AxisSpecLegacy.toSpec. simpl. split.
  - apply NumFacts.min_le_r; [|exact Ha].
    destruct (AxisSpecLegacy.constrainedMin r) as [[]|]; simpl; congruence.
  - apply NumFacts.max_ge_r; [|exact Hb].
    destruct (AxisSpecLegacy.constrainedMax r) as [[]|]; simpl; congruence.
Qed.

(** ** Facts about rectangles *)

Lemma Qltb_lt p q : Qltb p q = true <-> p < q.
Proof.
  unfold Qltb. rewrite negb_true_iff. split.
  - intros Hb. apply Qnot_le_lt. intros Hle.
    apply Qle_bool_iff in Hle. congruence.
  - intros Hlt. destruct (Qle_bool q p) eqn:E; [|reflexivity].
    apply Qle_bool_iff in E. exfalso. now apply (Qlt_not_le p q).
Qed.

Lemma Qltb_ge p q : Qltb p q = false <-> q <= p.
Proof.
  unfold Qltb. rewrite negb_false_iff. apply Qle_bool_iff.
Qed.

Lemma Qgtb_le p q : Qgtb p q = false <-> p <= q.
Proof.
  unfold Qgtb. rewrite negb_false_iff. apply Qle_bool_iff.
Qed.

Lemma intersects_spec (r1 r2 : Bounds.t) :
  Bounds.intersects r1 r2 = true
  <-> Bounds.left r2 <= Bounds.right r1
      /\ Bounds.left r1 <= Bounds.right r2
      /\ Bounds.top r2 <= Bounds.bottom r1
      /\ Bounds.top r1 <= Bounds.bottom r2.
Proof.
  unfold Bounds.intersects.
  rewrite negb_true_iff, !orb_false_iff, !Qgtb_le, !Qltb_ge. tauto.
Qed.

Lemma intersects_sym (r1 r2 : Bounds.t) :
  Bounds.intersects r1 r2 = Bounds.intersects r2 r1.
Proof.
  apply eq_true_iff_eq. rewrite !intersects_spec. tauto.
Qed.

Lemma doIntersect_horizontal_spec (b1 b2 : Bounds.t) :
  Axis.doIntersect Axis.Horizontal b1 b2 = true
  <-> Bounds.left b2 + 5 <= Bounds.right b1
      /\ Bounds.left b1 <= Bounds.right b2 - 5
      /\ Bounds.top b2 <= Bounds.bottom b1
      /\ Bounds.top b1 <= Bounds.bottom b2.
Proof.
  unfold Axis.doIntersect. rewrite intersects_spec.
  unfold Bounds.padWidth, Bounds.left, Bounds.right, Bounds.top, Bounds.bottom.
  simpl. split; intros (H1 & H2 & H3 & H4); repeat split; lra.
Qed.

(** The overlap test of either axis does not depend on the order of
    its arguments. *)
Lemma doIntersect_sym (k : Axis.Kind) (b1 b2 : Bounds.t) :
  Axis.doIntersect k b1 b2 = Axis.doIntersect k b2 b1.
Proof.
  destruct k.
  - apply intersects_sym.
  - apply eq_true_iff_eq. rewrite !doIntersect_horizontal_spec.
    split; intros (H1 & H2 & H3 & H4); repeat split; lra.
Qed.

(** C3, as stated, fails: the rectangle spanning [0, 10] overlaps the
    rectangle spanning [2, 22] once the latter is padded to [7, 17],
    so [doIntersect] holds; shrunk to [5, 5] itself it would not. *)
Lemma doIntersect_pads_second_only :
  Axis.doIntersect Axis.Horizontal (Bounds.mk 0 0 10 10) (Bounds.mk 2 0 20 10)
  = true
  /\ intersects_both_padded (Bounds.mk 0 0 10 10) (Bounds.mk 2 0 20 10)
     = false.
Proof. split; reflexivity. Qed.

(** C3, amended.  On a horizontal axis the overlap test pads only the
    second of the two bounds by 5px on the left and on the right, and
    tests it against the first bounds as they are:
    [doIntersect(b1, b2)] holds exactly when [b1] intersects
    [b2.padWidth(-5)]. *)
Theorem horizontal_doIntersect_pads_second (b1 b2 : Bounds.t) :
  Axis.doIntersect Axis.Horizontal b1 b2
  = Bounds.intersects b1 (Bounds.padWidth b2 (-5))
  /\ (Axis.doIntersect Axis.Horizontal b1 b2 = true
      <-> Bounds.left b2 + 5 <= Bounds.right b1
          /\ Bounds.left b1 <= Bounds.right b2 - 5
          /\ Bounds.top b2 <= Bounds.bottom b1
          /\ Bounds.top b1 <= Bounds.bottom b2).
Proof.
  split; [reflexivity | apply doIntersect_horizontal_spec].
Qed.

(** ** Facts about the animation of the domains *)

Lemma truthy_zero (a : Q) : a == 0 -> AxisBox.truthy (Some a) = false.
Proof.
  intros Ha. simpl. now rewrite (Qeq_eq_bool _ _ Ha).
Qed.

(** The interpolated domain at a progress of exactly zero. *)
Lemma currentDomain_at_zero (spec : AxisBox.AxisSpec) (prev target : Q * Q) a :
  a == 0 ->
  domain_eq (AxisBox.currentDomain spec prev target (Some a))
            (lerp (fst prev) (fst target)
                  (if ScaleType_eqb (AxisBox.scaleType spec) log then 0.01 else 0),
             snd prev).
Proof.
  intros Ha. destruct prev as [pmin pmax], target as [tmin tmax].
  unfold AxisBox.currentDomain. rewrite (truthy_zero a Ha).
  unfold domain_eq, lerp. simpl. split; [reflexivity|].
  rewrite Ha. lra.
Qed.

(** C6, as stated, fails on the maximum: animating a log axis from
    [1, 100] to [1, 500], the domain at progress 0 is [1, 100], not the
    interpolation [1, 104] with factor 0.01. *)
Lemma currentYDomain_max_keeps_factor_0 :
  AxisBox.animProgress logTweenStart = Some 0
  /\ domain_eq (AxisBox.currentYDomain logTweenStart) (1, 100)
  /\ ~ domain_eq (AxisBox.currentYDomain logTweenStart)
         (lerp_domain (AxisBox.prevYDomain logTweenStart)
                      (AxisBox.targetYDomain logTweenStart) 0.01).
Proof.
  split; [reflexivity|]. split.
  - split; reflexivity.
  - intros [_ Hmax]. vm_compute in Hmax. discriminate.
Qed.

(** C6, amended.  At an animation progress of exactly 0, on a log axis
    the minimum of the current domain is the interpolation of the
    previous minimum towards the target minimum with factor 0.01
    substituted for 0, while the maximum is interpolated with factor 0
    and equals the previous maximum; so a previous minimum of zero is
    not rendered when the target minimum is not zero.  On a linear axis
    the factor is 0 for both and the current domain is the previous
    domain. *)
Theorem currentDomain_at_animation_start (ab : AxisBox.AxisBox) (a : Q) :
  AxisBox.animProgress ab = Some a ->
  a == 0 ->
  let ySpec := AxisBox.yAxisSpec (AxisBox.props ab) in
  let xSpec := AxisBox.xAxisSpec (AxisBox.props ab) in
  let prevY := AxisBox.prevYDomain ab in
  let prevX := AxisBox.prevXDomain ab in
  let targetY := AxisBox.targetYDomain ab in
  let targetX := AxisBox.targetXDomain ab in
  (AxisBox.scaleType ySpec = log ->
   domain_eq (AxisBox.currentYDomain ab)
             (lerp (fst prevY) (fst targetY) 0.01, snd prevY)
   /\ (fst prevY == 0 -> ~ fst targetY == 0 ->
       ~ fst (AxisBox.currentYDomain ab) == 0))
  /\ (AxisBox.scaleType xSpec = log ->
      domain_eq (AxisBox.currentXDomain ab)
                (lerp (fst prevX) (fst targetX) 0.01, snd prevX)
      /\ (fst prevX == 0 -> ~ fst targetX == 0 ->
          ~ fst (AxisBox.currentXDomain ab) == 0))
  /\ (AxisBox.scaleType ySpec = linear ->
      domain_eq (AxisBox.currentYDomain ab) prevY)
  /\ (AxisBox.scaleType xSpec = linear ->
      domain_eq (AxisBox.currentXDomain ab) prevX).
Proof.
  intros Hanim Ha ySpec xSpec prevY prevX targetY targetX.
  assert (Hlog : forall spec prev target,
             AxisBox.scaleType spec = log ->
             domain_eq (AxisBox.currentDomain spec prev target (Some a))
                       (lerp (fst prev) (fst target) 0.01, snd prev)
             /\ (fst prev == 0 -> ~ fst target == 0 ->
                 ~ fst (AxisBox.currentDomain spec prev target (Some a)) == 0)).
  { intros spec prev target Hst.
    pose proof (currentDomain_at_zero spec prev target a Ha) as [Hmin Hmax].
    rewrite Hst in Hmin. simpl in Hmin, Hmax.
    split; [split; assumption|].
    intros Hp Ht. rewrite Hmin. unfold lerp. lra. }
  assert (Hlin : forall spec prev target,
             AxisBox.scaleType spec = linear ->
             domain_eq (AxisBox.currentDomain spec prev target (Some a)) prev).
  { intros spec prev target Hst.
    pose proof (currentDomain_at_zero spec prev target a Ha) as [Hmin Hmax].
    rewrite Hst in Hmin. simpl in Hmin, Hmax.
    split; [|exact Hmax]. rewrite Hmin. unfold lerp. lra. }
  unfold AxisBox.currentYDomain, AxisBox.currentXDomain. rewrite Hanim.
  split; [apply Hlog|]. split; [apply Hlog|]. split; apply Hlin.
Qed.

(** A log axis animating from [0, 100] to [1, 500] starts at the
    domain [0.01, 100]. *)
Lemma currentDomain_at_animation_start_log :
  domain_eq (AxisBox.currentYDomain logTweenFromZero) (0.01, 100)
  /\ ~ fst (AxisBox.currentYDomain logTweenFromZero) == 0.
Proof.
  destruct (currentDomain_at_animation_start
              logTweenFromZero 0 eq_refl (Qeq_refl 0)) as (Hy & _).
  destruct (Hy eq_refl) as [[Hmin Hmax] Hnonzero].
  split; [split|].
  - rewrite Hmin. reflexivity.
  - exact Hmax.
  - apply Hnonzero; [reflexivity | discriminate].
Defined.





(** ** Facts about the sizing of the two axes *)

Section SizingFacts.

Context `{Collaborators}.

(** The height estimate of the x axis reads nothing of the y axis,
    and the width estimate of the y axis nothing of the x axis. *)
Lemma xAxisHeight_ignores_y ab spec prev target :
  AxisBox.xAxisHeight (withYAxis ab spec prev target) = AxisBox.xAxisHeight ab.
Proof. reflexivity. Qed.

Lemma yAxisWidth_ignores_x ab spec prev target :
  AxisBox.yAxisWidth (withXAxis ab spec prev target) = AxisBox.yAxisWidth ab.
Proof. reflexivity. Qed.

(** C5.  The inner bounds are the outer bounds [B] padded at the
    bottom by the height estimate of the x axis and at the left by
    the width estimate of the y axis.  The height estimate is that of
    a horizontal axis over a scratch scale with pixel range
    [0, B.width], the width estimate that of a vertical axis over a
    scratch scale with pixel range [0, B.height]; each is computed
    from its own axis alone, in one pass.  The final x and y scales
    carry the [xRange] and the [yRange] of the inner bounds: what is
    left of the width to the right of the y axis, and of the height
    above the x axis. *)
Theorem innerBounds_from_isolated_estimates (ab : AxisBox.AxisBox) :
  let B := AxisBox.bounds (AxisBox.props ab) in
  let xScratch :=
    AxisBox.scaleWithRange (AxisBox.currentXAxisSpec ab) (0, Bounds.width B) in
  let yScratch :=
    AxisBox.scaleWithRange (AxisBox.currentYAxisSpec ab) (0, Bounds.height B) in
  let h := Axis.height
             {| Axis.scale := xScratch;
                Axis.labelText := AxisBox.label (AxisBox.currentXAxisSpec ab);
                Axis.fontSize := AxisBox.fontSize (AxisBox.props ab) |} in
  let w := Axis.width
             {| Axis.scale := yScratch;
                Axis.labelText := AxisBox.label (AxisBox.currentYAxisSpec ab);
                Axis.fontSize := AxisBox.fontSize (AxisBox.props ab) |} in
  AxisBox.xAxisHeight ab = h
  /\ AxisBox.yAxisWidth ab = w
  /\ AxisBox.innerBounds ab = Bounds.padLeft (Bounds.padBottom B h) w
  /\ AxisBox.innerBounds ab
     = Bounds.mk (Bounds.x B + w) (Bounds.y B)
                 (Bounds.width B - w) (Bounds.height B - h)
  /\ (forall spec prev target,
         AxisBox.xAxisHeight (withYAxis ab spec prev target) = h)
  /\ (forall spec prev target,
         AxisBox.yAxisWidth (withXAxis ab spec prev target) = w)
  /\ AxisBox.xScale ab
     = AxisBox.scaleWithRange (AxisBox.currentXAxisSpec ab)
                              (Bounds.xRange (AxisBox.innerBounds ab))
  /\ AxisBox.yScale ab
     = AxisBox.scaleWithRange (AxisBox.currentYAxisSpec ab)
                              (Bounds.yRange (AxisBox.innerBounds ab))
  /\ range (AxisBox.xScale ab) = Bounds.xRange (AxisBox.innerBounds ab)
  /\ range (AxisBox.yScale ab) = Bounds.yRange (AxisBox.innerBounds ab)
  /\ range (Axis.scale (AxisBox.horizontalAxis ab))
     = Bounds.xRange (AxisBox.innerBounds ab)
  /\ range (Axis.scale (AxisBox.verticalAxis ab))
     = Bounds.yRange (AxisBox.innerBounds ab)
  /\ domain_eq (range (AxisBox.xScale ab))
               (Bounds.left B + w, Bounds.right B)
  /\ domain_eq (range (AxisBox.yScale ab))
               (Bounds.bottom B - h, Bounds.top B).
Proof.
  intros B xScratch yScratch h w.
  repeat (split; [intros; reflexivity|]).
  assert (Hinner : AxisBox.innerBounds ab
                   = Bounds.mk (Bounds.x B + w) (Bounds.y B)
                               (Bounds.width B - w) (Bounds.height B - h))
    by reflexivity.
  unfold AxisBox.xScale, AxisBox.yScale. simpl range. rewrite Hinner.
  unfold domain_eq, Bounds.xRange, Bounds.yRange,
    Bounds.left, Bounds.right, Bounds.bottom, Bounds.top.
  simpl. repeat split; lra.
Qed.

End SizingFacts.

(** ** Facts about the tick candidates *)

Lemma uniq_incl {A} (l : list (Obj A)) o : In o (Lodash.uniq l) -> In o l.
Proof.
  revert o. induction l as [|a l IH]; intros o; simpl; [tauto|].
  intros [->|Hin]; [now left|].
  apply filter_In in Hin as [Hin _]. right. now apply IH.
Qed.

(** [uniq] keeps an object whose address no other element shares. *)
Lemma uniq_keeps {A} (l : list (Obj A)) o :
  In o l ->
  (forall o', In o' l -> addr o' = addr o -> o' = o) ->
  In o (Lodash.uniq l).
Proof.
  induction l as [|a l IH]; simpl; [tauto|].
  intros Hin Hown.
  destruct (Nat.eq_dec (addr a) (addr o)) as [Heq|Hne].
  - left. apply Hown; [now left | exact Heq].
  - right. destruct Hin as [->|Hin]; [congruence|].
    apply filter_In. split.
    + apply IH; [exact Hin|]. intros o' Ho'. apply Hown. now right.
    + apply negb_true_iff, Nat.eqb_neq. congruence.
Qed.

Lemma fresh_above {A} (l : list (Obj A)) o :
  In o l -> (addr o < Lodash.fresh l)%nat.
Proof.
  unfold Lodash.fresh. induction l as [|a l IH]; simpl; [tauto|].
  intros [->|Hin]; [lia|]. specialize (IH Hin). lia.
Qed.

Section CandidateFacts.

Context `{Collaborators}.

(** Every candidate of the horizontal axis is an end point literal
    or a tick of the scale that is not for grid lines only. *)
Lemma horizontalBaseTicks_origin (props : Axis.AxisProps) o :
  In o (Axis.horizontalBaseTicks props) ->
  let d := scale_domain (Axis.scale props) in
  (In o (getTickValues (Axis.scale props)) /\ gridLineOnly (obj o) = false)
  \/ (Axis.isWhole (fst d) = true
      /\ obj o = Axis.endPointTick (fst d) (Axis.startEndPrio props))
  \/ (Axis.isWhole (snd d) = true
      /\ hideFractionalTicks (Axis.scale props) = true
      /\ obj o = Axis.endPointTick (snd d) (Axis.startEndPrio props)).
Proof.
  intros Hin d. apply uniq_incl in Hin. fold d in Hin.
  assert (Hbase : forall o', In o' (Axis.abstractBaseTicks props) ->
                  In o' (getTickValues (Axis.scale props))
                  /\ gridLineOnly (obj o') = false).
  { intros o' Ho'. apply filter_In in Ho' as [? Hg].
    now apply negb_true_iff in Hg. }
  assert (Hfirst : forall o',
             In o' (if Axis.isWhole (fst d)
                    then mkObj (Lodash.fresh (Axis.abstractBaseTicks props))
                               (Axis.endPointTick (fst d) (Axis.startEndPrio props))
                           :: Axis.abstractBaseTicks props
                    else Axis.abstractBaseTicks props) ->
             (In o' (getTickValues (Axis.scale props))
              /\ gridLineOnly (obj o') = false)
             \/ (Axis.isWhole (fst d) = true
                 /\ obj o' = Axis.endPointTick (fst d) (Axis.startEndPrio props))).
  { intros o'. destruct (Axis.isWhole (fst d)); simpl.
    - intros [<-|Ho']; [right; now split | left; now apply Hbase].
    - intros Ho'. left. now apply Hbase. }
  destruct (Axis.isWhole (snd d) && hideFractionalTicks (Axis.scale props))
    eqn:Hlast.
  - apply andb_true_iff in Hlast as [Hw Hh].
    apply in_app_or in Hin as [Hin|[<-|[]]].
    + destruct (Hfirst o Hin) as [?|?]; [now left | right; now left].
    + right. right. now repeat split.
  - destruct (Hfirst o Hin) as [?|?]; [now left | right; now left].
Qed.

(** C4, amended.  [HorizontalAxis.baseTicks] contains a synthetic
    candidate at the domain minimum when that is a whole number, and
    one at the domain maximum when that is a whole number and the
    scale hides fractional ticks; each is flagged [isFirstOrLastTick]
    and has priority 2 on a log scale and 1 on a linear one.  Every
    other candidate is a tick of the scale that is not for grid
    lines only. *)
Theorem horizontal_baseTicks_endpoints (props : Axis.AxisProps) :
  let d := scale_domain (Axis.scale props) in
  let prio := match scale_scaleType (Axis.scale props) with
              | log => 2
              | linear => 1
              end in
  let candidates := Axis.baseTicks Axis.Horizontal props in
  (Axis.isWhole (fst d) = true ->
   In (Axis.endPointTick (fst d) prio) candidates
   /\ has_endpoint_candidate candidates (fst d) prio)
  /\ (Axis.isWhole (snd d) = true ->
      hideFractionalTicks (Axis.scale props) = true ->
      In (Axis.endPointTick (snd d) prio) candidates
      /\ has_endpoint_candidate candidates (snd d) prio)
  /\ (forall t, In t candidates ->
        t = Axis.endPointTick (fst d) prio
        \/ t = Axis.endPointTick (snd d) prio
        \/ (gridLineOnly t = false
            /\ In t (List.map obj (getTickValues (Axis.scale props))))).
Proof.
  intros d prio candidates.
  assert (Hprio : Axis.startEndPrio props = prio).
  { unfold Axis.startEndPrio, prio.
    now destruct (scale_scaleType (Axis.scale props)). }
  assert (Hcand : forall v, In (Axis.endPointTick v prio) candidates ->
                  has_endpoint_candidate candidates v prio).
  { intros v Hin. exists (Axis.endPointTick v prio).
    repeat split; [exact Hin | reflexivity..]. }
  split; [|split].
  - intros Hw.
    assert (Hin : In (Axis.endPointTick (fst d) prio) candidates);
      [|split; [exact Hin | now apply Hcand]].
    unfold candidates, Axis.baseTicks, Axis.horizontalBaseTicks.
    fold d. rewrite Hw, Hprio.
    set (first := mkObj _ (Axis.endPointTick (fst d) prio)).
    apply (in_map obj _ first).
    destruct (Axis.isWhole (snd d) && _); simpl; now left.
  - intros Hw Hh.
    assert (Hin : In (Axis.endPointTick (snd d) prio) candidates);
      [|split; [exact Hin | now apply Hcand]].
    unfold candidates, Axis.baseTicks, Axis.horizontalBaseTicks.
    fold d. rewrite Hw, Hh, Hprio. simpl andb. cbv iota.
    set (ticks1 := if Axis.isWhole (fst d) then _ else _).
    set (last := mkObj (Lodash.fresh ticks1) (Axis.endPointTick (snd d) prio)).
    apply (in_map obj _ last).
    apply uniq_keeps.
    + apply in_or_app. right. now left.
    + intros o' Ho' Haddr. apply in_app_or in Ho' as [Ho'|[<-|[]]].
      * apply fresh_above in Ho'. simpl in Haddr. lia.
      * reflexivity.
  - intros t Ht. unfold candidates, Axis.baseTicks in Ht.
    apply in_map_iff in Ht as (o & <- & Ho).
    apply horizontalBaseTicks_origin in Ho. fold d in Ho. rewrite Hprio in Ho.
    destruct Ho as [[Ho Hg]|[[_ Ho]|(_ & _ & Ho)]].
    + right. right. split; [exact Hg | now apply in_map].
    + now left.
    + right. now left.
Qed.

End CandidateFacts.

(** C4, as stated, fails on the maximum: on a linear scale over the
    whole-number domain [0, 10] that does not hide fractional ticks,
    the only candidate is the synthetic one at 0; there is none at
    10. *)
Lemma horizontal_baseTicks_without_max :
  Axis.isWhole 0 = true
  /\ Axis.isWhole 10 = true
  /\ @Axis.baseTicks noTicksScale Axis.Horizontal (sampleAxis linear (0, 10) false)
     = [Axis.endPointTick 0 1]
  /\ ~ has_endpoint_candidate
        (@Axis.baseTicks noTicksScale Axis.Horizontal
                         (sampleAxis linear (0, 10) false))
        10 1.
Proof.
  repeat split.
  intros (t & Hin & Hv & _).
  destruct Hin as [<-|[]]. vm_compute in Hv. discriminate.
Qed.

(** On a log scale over [1, 1000] that hides fractional ticks, both end
    points are candidates of priority 2, next to the ticks of the
    scale. *)
Lemma horizontal_baseTicks_endpoints_log :
  has_endpoint_candidate
    (@Axis.baseTicks decadeScale Axis.Horizontal (sampleAxis log (1, 1000) true))
    1 2
  /\ has_endpoint_candidate
       (@Axis.baseTicks decadeScale Axis.Horizontal (sampleAxis log (1, 1000) true))
       1000 2.
Proof.
  destruct (@horizontal_baseTicks_endpoints
              decadeScale (sampleAxis log (1, 1000) true)) as (Hmin & Hmax & _).
  split.
  - apply Hmin. reflexivity.
  - apply Hmax; reflexivity.
Defined.

(** The objects that [uniq] compares are distinct, so a tick of the
    scale at the domain minimum stays next to the synthetic one. *)
Lemma horizontal_baseTicks_repeats_value :
  @Axis.baseTicks zeroTickScale Axis.Horizontal (sampleAxis linear (0, 10) false)
  = [Axis.endPointTick 0 1; plainTick 0 3]
  /\ ~ distinct_values
        (@Axis.baseTicks zeroTickScale Axis.Horizontal
                         (sampleAxis linear (0, 10) false)).
Proof.
  split; [reflexivity|].
  intros Hd. apply (Hd 0%nat 1%nat _ _ ltac:(lia) eq_refl eq_refl).
  reflexivity.
Qed.

(** ** Facts about the collision pass *)

Lemma evolves_refl ps : evolves ps ps.
Proof. split; [reflexivity|]. intros i t Ht. exists t. tauto. Qed.

Lemma evolves_trans ps1 ps2 ps3 :
  evolves ps1 ps2 -> evolves ps2 ps3 -> evolves ps1 ps3.
Proof.
  intros [Hl12 H12] [Hl23 H23]. split; [congruence|].
  intros i t1 Ht1.
  destruct (H12 i t1 Ht1) as (t2 & Ht2 & Htick2 & Hb2 & Hh2).
  destruct (H23 i t2 Ht2) as (t3 & Ht3 & Htick3 & Hb3 & Hh3).
  exists t3. repeat split; try congruence. auto.
Qed.

Lemma evolves_length ps ps' : evolves ps ps' -> length ps' = length ps.
Proof. now intros [Hl _]. Qed.

(** Going back from a later state to the earlier one. *)
Lemma evolves_lookup_back ps ps' i t' :
  evolves ps ps' -> ps' !! i = Some t' ->
  exists t, ps !! i = Some t
            /\ Axis.tick t' = Axis.tick t
            /\ Axis.bounds t' = Axis.bounds t
            /\ (Axis.isHidden t' = false -> Axis.isHidden t = false).
Proof.
  intros [Hlen Hev] Ht'.
  assert (Hi : (i < length ps)%nat)
    by (rewrite <- Hlen; now apply lookup_lt_Some in Ht').
  apply lookup_lt_is_Some in Hi as [t Ht].
  destruct (Hev i t Ht) as (t'' & Ht'' & Htick & Hb & Hh).
  assert (t'' = t') as -> by congruence.
  exists t. repeat split; try assumption.
  intros Hf. destruct (Axis.isHidden t); [|reflexivity].
  rewrite Hh in Hf; [discriminate | reflexivity].
Qed.

Lemma resolved_evolves k ps ps' i j :
  evolves ps ps' -> resolved k ps i j -> resolved k ps' i j.
Proof.
  intros Hev Hres t1' t2' H1 H2 Hh1 Hh2.
  destruct (evolves_lookup_back _ _ _ _ Hev H1) as (t1 & Ht1 & _ & Hb1 & Hu1).
  destruct (evolves_lookup_back _ _ _ _ Hev H2) as (t2 & Ht2 & _ & Hb2 & Hu2).
  rewrite Hb1, Hb2. apply Hres; auto.
Qed.

Section PassFacts.

Variable k : Axis.Kind.

Lemma compare_length i j ps : length (Axis.compare k i j ps) = length ps.
Proof.
  unfold Axis.compare.
  destruct (ps !! i), (ps !! j); try reflexivity.
  repeat (match goal with |- context [if ?c then _ else _] => destruct c end);
    try reflexivity.
  apply length_insert.
Qed.

(** A comparison only ever writes the placement at its second index. *)
Lemma compare_lookup_other i j ps j' :
  j' <> j -> Axis.compare k i j ps !! j' = ps !! j'.
Proof.
  intros Hne. unfold Axis.compare.
  destruct (ps !! i), (ps !! j); try reflexivity.
  repeat (match goal with |- context [if ?c then _ else _] => destruct c end);
    try reflexivity.
  now apply list_lookup_insert_ne.
Qed.

(** What a comparison leaves at its second index. *)
Lemma compare_lookup_second i j ps t1 t2 :
  ps !! i = Some t1 -> ps !! j = Some t2 ->
  Axis.compare k i j ps !! j
  = Some (if negb ((i =? j)%nat || Axis.isHidden t1 || Axis.isHidden t2)
             && Axis.doIntersect k (Axis.bounds t1) (Axis.bounds t2)
          then Axis.hide t2 else t2).
Proof.
  intros H1 H2. unfold Axis.compare. rewrite H1, H2.
  destruct ((i =? j)%nat || Axis.isHidden t1 || Axis.isHidden t2);
    simpl; [exact H2|].
  destruct (Axis.doIntersect k _ _); [|exact H2].
  apply list_lookup_insert_eq. now apply lookup_lt_Some in H2.
Qed.

Lemma compare_evolves i j ps : evolves ps (Axis.compare k i j ps).
Proof.
  split; [apply compare_length|].
  intros j' t Ht. destruct (Nat.eq_dec j' j) as [->|Hne].
  - destruct (ps !! i) as [t1|] eqn:H1.
    + rewrite (compare_lookup_second i j ps t1 t H1 Ht).
      eexists. split; [reflexivity|].
      destruct (_ && _); simpl; tauto.
    + exists t. unfold Axis.compare. rewrite H1. tauto.
  - exists t. rewrite compare_lookup_other by exact Hne. tauto.
Qed.

Lemma compare_resolved i j ps :
  i <> j -> resolved k (Axis.compare k i j ps) i j.
Proof.
  intros Hne t1 t2' H1 H2 Hh1 Hh2.
  rewrite compare_lookup_other in H1 by exact Hne.
  destruct (ps !! j) as [t2|] eqn:Hj.
  - rewrite (compare_lookup_second i j ps t1 t2 H1 Hj) in H2.
    injection H2 as <-.
    apply Nat.eqb_neq in Hne. rewrite Hne, Hh1 in Hh2 |- *. simpl in Hh2 |- *.
    destruct (Axis.isHidden t2) eqn:Hh2'; simpl in Hh2 |- *; [congruence|].
    destruct (Axis.doIntersect k (Axis.bounds t1) (Axis.bounds t2)) eqn:E;
      simpl in Hh2 |- *; [discriminate | exact E].
  - unfold Axis.compare in H2. rewrite H1, Hj in H2. congruence.
Qed.

(** Folding steps that each let the state evolve. *)
Lemma foldl_evolves {B} (f : list Axis.TickPlacement -> B -> list Axis.TickPlacement)
      (l : list B) :
  (forall ps b, evolves ps (f ps b)) ->
  forall ps, evolves ps (foldl f ps l).
Proof.
  intros Hf. induction l as [|b l IH]; intros ps; simpl.
  - apply evolves_refl.
  - eapply evolves_trans; [apply Hf | apply IH].
Qed.

(** A property that each step establishes for its own index, and
    that later states keep, holds for all indices at the end. *)
Lemma foldl_establishes {B}
      (f : list Axis.TickPlacement -> B -> list Axis.TickPlacement)
      (P : B -> list Axis.TickPlacement -> Prop) (l : list B) :
  (forall ps b, evolves ps (f ps b)) ->
  (forall b ps ps', evolves ps ps' -> P b ps -> P b ps') ->
  (forall ps b, In b l -> P b (f ps b)) ->
  forall ps b, In b l -> P b (foldl f ps l).
Proof.
  intros Hf Hmono. induction l as [|a l IH]; intros Hest ps b Hin; simpl.
  - destruct Hin.
  - destruct Hin as [->|Hin].
    + apply (Hmono b (f ps b)); [now apply foldl_evolves|].
      apply Hest. now left.
    + apply IH; [|exact Hin]. intros ps' b' Hb'. apply Hest. now right.
Qed.

Lemma innerLoop_evolves i ps : evolves ps (Axis.innerLoop k i ps).
Proof.
  unfold Axis.innerLoop. apply foldl_evolves.
  intros ps' j. apply compare_evolves.
Qed.

Lemma collisionPass_evolves ps : evolves ps (Axis.collisionPass k ps).
Proof.
  unfold Axis.collisionPass. apply foldl_evolves.
  intros ps' i. apply innerLoop_evolves.
Qed.

Lemma innerLoop_resolved i j ps :
  (i < j < length ps)%nat -> resolved k (Axis.innerLoop k i ps) i j.
Proof.
  intros Hij. unfold Axis.innerLoop.
  apply (foldl_establishes _ (fun j ps => resolved k ps i j)).
  - intros ps' j'. apply compare_evolves.
  - intros j' ps1 ps2. apply resolved_evolves.
  - intros ps' j' Hj'. apply in_seq in Hj'. apply compare_resolved. lia.
  - apply in_seq. lia.
Qed.

(** After the pass every pair of indices is resolved. *)
Lemma collisionPass_resolved i j ps :
  (i < j < length ps)%nat -> resolved k (Axis.collisionPass k ps) i j.
Proof.
  intros Hij. unfold Axis.collisionPass.
  apply (foldl_establishes
           _ (fun i ps' => forall j, (i < j < length ps)%nat ->
                                     resolved k ps' i j)
           (seq 0 (length ps))).
  - intros ps' i'. apply innerLoop_evolves.
  - intros i' ps1 ps2 Hev Hres j' Hj'.
    eapply resolved_evolves; [exact Hev | now apply Hres].
  - intros ps' i' Hi' j' Hj'.
    destruct (Nat.lt_ge_cases j' (length ps')) as [Hlt|Hge].
    + apply innerLoop_resolved. lia.
    + intros t1 t2 _ H2. apply lookup_lt_Some in H2.
      rewrite (evolves_length _ _ (innerLoop_evolves i' ps')) in H2. lia.
  - apply in_seq. lia.
  - exact Hij.
Qed.

End PassFacts.

(** ** Facts about [sortBy] *)

Section SortFacts.

Context {A : Type} (key : A -> Q).

Lemma insertBy_In a l x :
  In x (Lodash.insertBy key a l) <-> x = a \/ In x l.
Proof.
  induction l as [|b l IH]; simpl.
  - intuition.
  - destruct (Qle_bool (key a) (key b)); simpl; [intuition|].
    rewrite IH. intuition.
Qed.

Lemma sortBy_In l x : In x (Lodash.sortBy key l) <-> In x l.
Proof.
  induction l as [|a l IH]; simpl; [tauto|].
  rewrite insertBy_In, IH. intuition.
Qed.

Lemma insertBy_length a l :
  length (Lodash.insertBy key a l) = S (length l).
Proof.
  induction l as [|b l IH]; simpl; [reflexivity|].
  destruct (Qle_bool (key a) (key b)); simpl; [reflexivity|].
  now rewrite IH.
Qed.

Lemma sortBy_length l : length (Lodash.sortBy key l) = length l.
Proof.
  induction l as [|a l IH]; simpl; [reflexivity|].
  now rewrite insertBy_length, IH.
Qed.

Lemma insertBy_ascending a l :
  ascending key l -> ascending key (Lodash.insertBy key a l).
Proof.
  induction l as [|b l IH]; simpl.
  - intros _. split; [intros x []|exact I].
  - intros [Hb Hl]. destruct (Qle_bool (key a) (key b)) eqn:E; simpl.
    + apply Qle_bool_iff in E. split; [|split; assumption].
      intros x [<-|Hx]; [exact E|].
      apply Qle_trans with (key b); [exact E | now apply Hb].
    + apply Qle_bool_total, Qle_bool_iff in E. split; [|now apply IH].
      intros x Hx. apply insertBy_In in Hx as [->|Hx]; [exact E | now apply Hb].
Qed.

Lemma sortBy_ascending l : ascending key (Lodash.sortBy key l).
Proof.
  induction l as [|a l IH]; simpl; [exact I | now apply insertBy_ascending].
Qed.

Lemma ascending_lookup l i j x y :
  ascending key l -> (i < j)%nat -> l !! i = Some x -> l !! j = Some y ->
  key x <= key y.
Proof.
  revert i j. induction l as [|a l IH]; intros i j Hasc Hij Hi Hj.
  - discriminate.
  - destruct Hasc as [Ha Hl]. destruct j as [|j]; [lia|].
    destruct i as [|i]; simpl in Hi, Hj.
    + injection Hi as <-. apply Ha.
      apply list_elem_of_In, list_elem_of_lookup. eauto.
    + apply (IH i j); [exact Hl | lia | exact Hi | exact Hj].
Qed.

(** [sortBy] is ascending: an earlier element has at most the key of
    a later one. *)
Lemma sortBy_lookup_le l i j x y :
  (i < j)%nat ->
  Lodash.sortBy key l !! i = Some x -> Lodash.sortBy key l !! j = Some y ->
  key x <= key y.
Proof. apply ascending_lookup, sortBy_ascending. Qed.

(** [sortBy] is stable: the elements of any one key keep the order
    in which they were given. *)
Lemma insertBy_stable p a l :
  List.filter (fun x => Qeq_bool (key x) p) (Lodash.insertBy key a l)
  = List.filter (fun x => Qeq_bool (key x) p) (a :: l).
Proof.
  induction l as [|b l IH]; [reflexivity|].
  simpl. destruct (Qle_bool (key a) (key b)) eqn:E; [reflexivity|].
  simpl. rewrite IH. simpl.
  destruct (Qeq_bool (key a) p) eqn:Ea; [|reflexivity].
  destruct (Qeq_bool (key b) p) eqn:Eb; [|reflexivity].
  exfalso. apply Qeq_bool_iff in Ea, Eb.
  assert (Hle : key a <= key b) by (rewrite Ea, Eb; apply Qle_refl).
  apply Qle_bool_iff in Hle. congruence.
Qed.

Lemma sortBy_stable p l :
  List.filter (fun x => Qeq_bool (key x) p) (Lodash.sortBy key l)
  = List.filter (fun x => Qeq_bool (key x) p) l.
Proof.
  induction l as [|a l IH]; [reflexivity|].
  simpl Lodash.sortBy. rewrite insertBy_stable. simpl. now rewrite IH.
Qed.

End SortFacts.

Lemma filter_lookup_In {A} (f : A -> bool) (l : list A) i x :
  List.filter f l !! i = Some x -> f x = true /\ exists i', l !! i' = Some x.
Proof.
  intros Hi.
  assert (Hin : In x (List.filter f l))
    by (apply list_elem_of_In, list_elem_of_lookup; eauto).
  apply filter_In in Hin as [Hin Hf]. split; [exact Hf|].
  now apply list_elem_of_In, list_elem_of_lookup in Hin.
Qed.

(** Two positions of a filtered list come from two positions of the
    list itself, in the same order. *)
Lemma filter_lookup_lt {A} (f : A -> bool) (l : list A) i j x y :
  (i < j)%nat ->
  List.filter f l !! i = Some x -> List.filter f l !! j = Some y ->
  f x = true /\ f y = true
  /\ exists i' j', (i' < j')%nat /\ l !! i' = Some x /\ l !! j' = Some y.
Proof.
  revert i j. induction l as [|a l IH]; intros i j Hij Hi Hj; [discriminate|].
  simpl in Hi, Hj. destruct (f a) eqn:Hfa.
  - destruct j as [|j]; [lia|]. simpl in Hj. destruct i as [|i]; simpl in Hi.
    + injection Hi as <-.
      destruct (filter_lookup_In f l j y Hj) as [Hfy [j' Hj']].
      repeat split; try assumption. exists 0%nat, (S j'). repeat split; [lia | exact Hj'].
    + destruct (IH i j ltac:(lia) Hi Hj) as (Hfx & Hfy & i' & j' & Hlt & Hi' & Hj').
      repeat split; try assumption. exists (S i'), (S j'). repeat split; [lia | exact Hi' | exact Hj'].
  - destruct (IH i j Hij Hi Hj) as (Hfx & Hfy & i' & j' & Hlt & Hi' & Hj').
    repeat split; try assumption. exists (S i'), (S j'). repeat split; [lia | exact Hi' | exact Hj'].
Qed.

(** ** The collision invariant *)

(** After the pass no two placements survive with intersecting bounds,
    whatever the placements it started from. *)
Lemma collisionPass_pairwise (k : Axis.Kind) (ps : list Axis.TickPlacement)
      i j t1 t2 :
  i <> j ->
  Axis.collisionPass k ps !! i = Some t1 ->
  Axis.collisionPass k ps !! j = Some t2 ->
  Axis.isHidden t1 = false -> Axis.isHidden t2 = false ->
  Axis.doIntersect k (Axis.bounds t1) (Axis.bounds t2) = false.
Proof.
  intros Hne H1 H2 Hh1 Hh2.
  pose proof (evolves_length _ _ (collisionPass_evolves k ps)) as Hlen.
  pose proof (lookup_lt_Some _ _ _ H1) as Hi.
  pose proof (lookup_lt_Some _ _ _ H2) as Hj.
  rewrite Hlen in Hi, Hj.
  destruct (Nat.lt_gt_cases i j) as [Hcases _].
  destruct (Hcases Hne) as [Hlt|Hgt].
  - apply (collisionPass_resolved k i j ps); auto.
  - rewrite doIntersect_sym.
    apply (collisionPass_resolved k j i ps); auto.
Qed.

Section CollisionInvariant.

Context `{Collaborators}.

(** The ticks that [ticks] returns are those of the surviving
    placements. *)
Lemma ticks_In (k : Axis.Kind) (props : Axis.AxisProps) v :
  In v (Axis.ticks k props)
  <-> exists t, In t (Axis.collisionPass k (Axis.tickPlacements k props))
                /\ Axis.isHidden t = false /\ Axis.tick t = v.
Proof.
  unfold Axis.ticks, Axis.survivors. rewrite sortBy_In, in_map_iff.
  split.
  - intros (t & Hv & Ht). apply filter_In in Ht as [Ht Hh].
    exists t. repeat split; try assumption. now apply negb_true_iff in Hh.
  - intros (t & Ht & Hh & Hv). exists t. split; [exact Hv|].
    apply filter_In. split; [exact Ht|]. now rewrite Hh.
Qed.

(** C1.  For either axis and any list of placements, after the
    collision pass no two distinct surviving placements have
    intersecting bounds under the overlap test of that axis (the
    padded one for the horizontal axis); the ticks returned by
    [ticks] are the ticks of the survivors of the pass over
    [tickPlacements]. *)
Theorem ticks_pairwise_overlap_free
        (k : Axis.Kind) (props : Axis.AxisProps)
        (ps : list Axis.TickPlacement) (i j : nat)
        (t1 t2 : Axis.TickPlacement) :
  let placed := Axis.survivors (Axis.collisionPass k ps) in
  i <> j ->
  placed !! i = Some t1 ->
  placed !! j = Some t2 ->
  Axis.doIntersect k (Axis.bounds t1) (Axis.bounds t2) = false
  /\ Axis.doIntersect k (Axis.bounds t2) (Axis.bounds t1) = false
  /\ (ps = Axis.tickPlacements k props ->
      In (Axis.tick t1) (Axis.ticks k props)
      /\ In (Axis.tick t2) (Axis.ticks k props)).
Proof.
  intros placed Hne H1 H2.
  assert (Hpair : forall i j t1 t2, (i < j)%nat ->
            placed !! i = Some t1 -> placed !! j = Some t2 ->
            Axis.doIntersect k (Axis.bounds t1) (Axis.bounds t2) = false).
  { intros i0 j0 u1 u2 Hlt Hu1 Hu2.
    destruct (filter_lookup_lt _ _ _ _ _ _ Hlt Hu1 Hu2)
      as (Hf1 & Hf2 & i' & j' & Hlt' & Hi' & Hj').
    apply negb_true_iff in Hf1, Hf2.
    apply (collisionPass_pairwise k ps i' j'); auto. lia. }
  assert (Hfst : Axis.doIntersect k (Axis.bounds t1) (Axis.bounds t2) = false).
  { destruct (Nat.lt_gt_cases i j) as [Hcases _].
    destruct (Hcases Hne) as [Hlt|Hgt].
    - now apply (Hpair i j).
    - rewrite doIntersect_sym. now apply (Hpair j i). }
  split; [exact Hfst|]. split; [now rewrite doIntersect_sym|].
  intros ->. split; apply ticks_In.
  - destruct (filter_lookup_In _ _ _ _ H1) as [Hf [i' Hi']].
    exists t1. repeat split.
    + apply list_elem_of_In, list_elem_of_lookup. eauto.
    + now apply negb_true_iff in Hf.
  - destruct (filter_lookup_In _ _ _ _ H2) as [Hf [j' Hj']].
    exists t2. repeat split.
    + apply list_elem_of_In, list_elem_of_lookup. eauto.
    + now apply negb_true_iff in Hf.
Qed.

End CollisionInvariant.

(** Of three labels 30 pixels wide at the pixels 0, 20 and 40 the
    horizontal axis keeps the outer two, which do not overlap. *)
Lemma ticks_pairwise_overlap_free_crowded :
  List.map Axis.tick (Axis.survivors crowdedResult) = [0; 40]
  /\ @Axis.ticks crowdedScale Axis.Horizontal crowdedAxis = [0; 40]
  /\ exists t1 t2,
      Axis.survivors crowdedResult !! 0%nat = Some t1
      /\ Axis.survivors crowdedResult !! 1%nat = Some t2
      /\ Axis.doIntersect Axis.Horizontal (Axis.bounds t1) (Axis.bounds t2) = false.
Proof.
  split; [reflexivity|]. split; [reflexivity|].
  eexists. eexists.
  split; [reflexivity|]. split; [reflexivity|].
  refine (proj1 (@ticks_pairwise_overlap_free
                   crowdedScale Axis.Horizontal crowdedAxis crowdedPlacements
                   0%nat 1%nat _ _ _ _ _)).
  - lia.
  - reflexivity.
  - reflexivity.
Defined.

(** ** The priority invariant *)

Lemma lookup_map {A B} (f : A -> B) (l : list A) i :
  List.map f l !! i = f <$> (l !! i).
Proof.
  revert i. induction l as [|a l IH]; intros [|i]; simpl; auto.
Qed.

Section PriorityFacts.

Variable k : Axis.Kind.

(** A comparison of [i] with a later [j] keeps the placements
    justified, as long as no justifying index lies at [j] or
    beyond. *)
Lemma compare_justified i j bound ps :
  (i < bound)%nat -> (bound <= j)%nat ->
  justified k bound ps -> justified k bound (Axis.compare k i j ps).
Proof.
  intros Hib Hbj Hjust j' t2' Hj' Hh'.
  assert (Hold : forall t2, ps !! j' = Some t2 -> Axis.isHidden t2 = true ->
                 Axis.bounds t2 = Axis.bounds t2' ->
                 exists i' t1, (i' < j')%nat /\ (i' < bound)%nat
                   /\ Axis.compare k i j ps !! i' = Some t1
                   /\ Axis.isHidden t1 = false
                   /\ Axis.doIntersect k (Axis.bounds t1) (Axis.bounds t2') = true).
  { intros t2 Ht2 Hh2 Hb.
    destruct (Hjust j' t2 Ht2 Hh2) as (i' & t1 & Hlt & Hbound & Hi' & Hh1 & Hint).
    exists i', t1. rewrite compare_lookup_other by lia.
    rewrite <- Hb. auto. }
  destruct (Nat.eq_dec j' j) as [->|Hne];
    [|rewrite compare_lookup_other in Hj' by exact Hne; now apply (Hold t2')].
  destruct (ps !! i) as [t1|] eqn:Hi;
    [|unfold Axis.compare in Hj'; rewrite Hi in Hj'; now apply (Hold t2')].
  destruct (ps !! j) as [t2|] eqn:Hj;
    [|unfold Axis.compare in Hj'; rewrite Hi, Hj in Hj'; congruence].
  rewrite (compare_lookup_second k i j ps t1 t2 Hi Hj) in Hj'.
  injection Hj' as <-.
  destruct (negb _ && _) eqn:Hcond.
  - apply andb_true_iff in Hcond as [Hfree Hint].
    apply negb_true_iff, orb_false_iff in Hfree as [Hfree _].
    apply orb_false_iff in Hfree as [_ Hh1].
    exists i, t1. rewrite compare_lookup_other by lia.
    repeat split; try assumption; lia.
  - now apply (Hold t2).
Qed.

Lemma foldl_invariant {A B} (f : A -> B -> A) (I : A -> Prop) (l : list B) :
  (forall a b, In b l -> I a -> I (f a b)) ->
  forall a, I a -> I (foldl f a l).
Proof.
  induction l as [|b l IH]; intros Hstep a Ha; simpl; [exact Ha|].
  apply IH.
  - intros a' b' Hb'. apply Hstep. now right.
  - apply Hstep; [now left | exact Ha].
Qed.

Lemma justified_weaken bound bound' ps :
  (bound <= bound')%nat -> justified k bound ps -> justified k bound' ps.
Proof.
  intros Hle Hjust j t2 Hj Hh.
  destruct (Hjust j t2 Hj Hh) as (i & t1 & ? & ? & ?).
  exists i, t1. repeat split; try tauto; lia.
Qed.

Lemma innerLoop_justified i ps :
  justified k (S i) ps -> justified k (S i) (Axis.innerLoop k i ps).
Proof.
  unfold Axis.innerLoop. apply foldl_invariant.
  intros ps' j Hj. apply in_seq in Hj. apply compare_justified; lia.
Qed.

Lemma outerLoop_justified len start ps :
  justified k start ps ->
  justified k (start + len)
            (foldl (fun acc i => Axis.innerLoop k i acc) ps (seq start len)).
Proof.
  revert start ps. induction len as [|len IH]; intros start ps Hjust; simpl.
  - now rewrite Nat.add_0_r.
  - replace (start + S len)%nat with (S start + len)%nat by lia.
    apply IH, innerLoop_justified.
    apply (justified_weaken start); [lia | exact Hjust].
Qed.

(** When the pass starts with nothing hidden, every placement that
    it hides is hidden by an earlier placement that survives the
    whole pass and intersects it. *)
Lemma collisionPass_justified ps :
  (forall t, In t ps -> Axis.isHidden t = false) ->
  justified k (length ps) (Axis.collisionPass k ps).
Proof.
  intros Hfresh. unfold Axis.collisionPass.
  apply (outerLoop_justified (length ps) 0 ps).
  intros j t2 Hj Hh. exfalso.
  rewrite Hfresh in Hh; [discriminate|].
  apply list_elem_of_In, list_elem_of_lookup. eauto.
Qed.

End PriorityFacts.

Section PriorityInvariant.

Context `{Collaborators}.

Lemma tickPlacements_lookup k props i :
  Axis.tickPlacements k props !! i
  = Axis.placement k props
      <$> (Lodash.sortBy priority (Axis.baseTicks k props) !! i).
Proof. apply lookup_map. Qed.

Lemma tickPlacements_fresh k props t :
  In t (Axis.tickPlacements k props) -> Axis.isHidden t = false.
Proof.
  intros Hin. apply in_map_iff in Hin as (x & <- & _). reflexivity.
Qed.

(** The placements are in ascending order of priority, candidates of
    equal priority in the order of [baseTicks]. *)
Lemma tickPlacements_priority_order k props :
  let sorted := Lodash.sortBy priority (Axis.baseTicks k props) in
  Axis.tickPlacements k props = List.map (Axis.placement k props) sorted
  /\ (forall i j x y, (i < j)%nat -> sorted !! i = Some x -> sorted !! j = Some y ->
                      priority x <= priority y)
  /\ (forall p, List.filter (fun x => Qeq_bool (priority x) p) sorted
                = List.filter (fun x => Qeq_bool (priority x) p)
                              (Axis.baseTicks k props)).
Proof.
  intros sorted. split; [reflexivity|]. split.
  - intros i j x y. apply sortBy_lookup_le.
  - intros p. apply sortBy_stable.
Qed.


(** In the result of [ticks]' pass a placement is hidden exactly when
    an earlier placement, which has at most its priority number,
    survives and intersects it. *)
Lemma hidden_iff_earlier_survivor (k : Axis.Kind) (props : Axis.AxisProps) j t2 :
  let final := Axis.collisionPass k (Axis.tickPlacements k props) in
  final !! j = Some t2 ->
  (Axis.isHidden t2 = true
   <-> exists i t1, (i < j)%nat /\ final !! i = Some t1
                    /\ Axis.isHidden t1 = false
                    /\ Axis.doIntersect k (Axis.bounds t1) (Axis.bounds t2) = true).
Proof.
  intros final Hj. split.
  - intros Hh.
    destruct (collisionPass_justified k (Axis.tickPlacements k props)
                (tickPlacements_fresh k props) j t2 Hj Hh)
      as (i & t1 & Hlt & _ & Hi & Hh1 & Hint).
    exists i, t1. auto.
  - intros (i & t1 & Hlt & Hi & Hh1 & Hint).
    destruct (Axis.isHidden t2) eqn:Hh2; [reflexivity|].
    rewrite (collisionPass_pairwise k (Axis.tickPlacements k props) i j t1 t2)
      in Hint; auto. lia.
Qed.

End PriorityInvariant.


(** ** More about the scale selector *)

Lemma indexOf_absent (l : list ScaleType) v :
  ~ In v l -> ScaleSelector.indexOf l v = (-1)%Z.
Proof.
  induction l as [|a l IH]; intros Hnin; simpl; [reflexivity|].
  assert (Ha : ScaleType_eqb a v = false).
  { apply ScaleType_eqb_neq. intros ->. apply Hnin. now left. }
  rewrite Ha, IH; [reflexivity|]. intros Hin. apply Hnin. now right.
Qed.

Lemma selected_newValue (p : ScaleSelector.ScaleSelectorOptions) :
  ScaleSelector.selected (ScaleSelector.onClick p)
  = ScaleSelector.newValue
      (ScaleSelector.scaleTypeOptions (ScaleSelector.scaleTypeConfig p))
      (ScaleSelector.scaleType (ScaleSelector.scaleTypeConfig p)).
Proof.
  unfold ScaleSelector.onClick.
  destruct (ScaleSelector.onScaleTypeChange p);
    [|destruct (ScaleSelector.updateChartScaleType _)]; reflexivity.
Qed.

(** X1.  When the current scale type is not among the options, a click
    selects the first option; with no option at all it selects
    [undefined]. *)
Theorem onClick_unlisted_selects_first (p : ScaleSelector.ScaleSelectorOptions) :
  let cfg := ScaleSelector.scaleTypeConfig p in
  ~ In (ScaleSelector.scaleType cfg) (ScaleSelector.scaleTypeOptions cfg) ->
  ScaleSelector.selected (ScaleSelector.onClick p)
  = head (ScaleSelector.scaleTypeOptions cfg).
Proof.
  intros cfg Hnin. rewrite selected_newValue. fold cfg.
  unfold ScaleSelector.newValue, ScaleSelector.nextScaleTypeIndex.
  rewrite (indexOf_absent _ _ Hnin). cbv zeta.
  change (-1 + 1)%Z with 0%Z.
  destruct (0 >=? _)%Z; unfold ScaleSelector.at_index; simpl;
    now destruct (ScaleSelector.scaleTypeOptions cfg).
Qed.

(** A selector offering only [log] while the scale is linear selects
    [log]. *)
Lemma onClick_unlisted_selects_first_log :
  ScaleSelector.selected
    (ScaleSelector.onClick
       {| ScaleSelector.scaleTypeConfig :=
            {| ScaleSelector.scaleType := linear;
               ScaleSelector.scaleTypeOptions := [log];
               ScaleSelector.updateChartScaleType := true |};
          ScaleSelector.onScaleTypeChange := false |})
  = Some log.
Proof.
  refine (onClick_unlisted_selects_first _ _).
  simpl. intros [Heq|[]]. discriminate.
Defined.

Lemma newValue_first (opts : list ScaleType) cur i :
  first_index opts cur i ->
  ScaleSelector.newValue opts cur = opts !! ((i + 1) mod length opts).
Proof.
  intros Hfi. unfold ScaleSelector.newValue, ScaleSelector.at_index.
  rewrite (nextScaleTypeIndex_first opts cur i Hfi).
  destruct (Z.ltb_spec (Z.of_nat ((i + 1) mod length opts)) 0); [lia|].
  now rewrite Nat2Z.id.
Qed.

Lemma NoDup_first_index {A} (l : list A) v i :
  NoDup l -> l !! i = Some v -> first_index l v i.
Proof.
  intros Hnd Hi. split; [exact Hi|].
  intros k Hk Hkv. pose proof (NoDup_lookup l k i v Hnd Hkv Hi). lia.
Qed.

(** X2.  Over options without repetition, [k] clicks starting from the
    option at index [i] arrive at the option at index
    [(i + k) mod length]: the clicks cycle through all the options, and
    as many clicks as there are options lead back to the start. *)
Theorem afterClicks_cycles (opts : list ScaleType) (cur : ScaleType) (i k : nat) :
  NoDup opts ->
  opts !! i = Some cur ->
  ScaleSelectorMore.afterClicks k opts cur = opts !! ((i + k) mod length opts)
  /\ ScaleSelectorMore.afterClicks (length opts) opts cur = Some cur.
Proof.
  intros Hnd.
  assert (Hgen : forall k i cur, opts !! i = Some cur ->
            ScaleSelectorMore.afterClicks k opts cur
            = opts !! ((i + k) mod length opts)).
  { clear i k cur. induction k as [|k IH]; intros i cur Hi.
    - simpl. rewrite Nat.add_0_r, Nat.mod_small; [now rewrite Hi|].
      now apply lookup_lt_Some in Hi.
    - simpl.
      rewrite (newValue_first opts cur i (NoDup_first_index _ _ _ Hnd Hi)).
      assert (Hlen : (i < length opts)%nat) by now apply lookup_lt_Some in Hi.
      destruct (lookup_lt_is_Some_2 opts ((i + 1) mod length opts)) as [v Hv];
        [apply Nat.mod_upper_bound; lia|].
      rewrite Hv, (IH _ v Hv).
      rewrite Nat.Div0.add_mod_idemp_l. f_equal. f_equal. lia. }
  intros Hi. split; [now apply Hgen|].
  rewrite (Hgen _ i cur Hi).
  assert (Hlen : (i < length opts)%nat) by now apply lookup_lt_Some in Hi.
  replace (i + length opts)%nat with (i + 1 * length opts)%nat by lia.
  rewrite Nat.Div0.mod_add, Nat.mod_small by lia. exact Hi.
Qed.

(** Two clicks on the options [linear; log] restore [log]. *)
Lemma afterClicks_cycles_linear_log :
  ScaleSelectorMore.afterClicks 1 [linear; log] log = Some linear
  /\ ScaleSelectorMore.afterClicks 2 [linear; log] log = Some log.
Proof.
  assert (Hnd : NoDup [linear; log]).
  { apply NoDup_cons_2; [|apply NoDup_cons_2; [|apply NoDup_nil_2]].
    - intros Hin. apply list_elem_of_In in Hin as [Heq|[]]. discriminate.
    - intros Hin. now apply list_elem_of_In in Hin. }
  split.
  - exact (proj1 (afterClicks_cycles [linear; log] log 1 1 Hnd eq_refl)).
  - exact (proj2 (afterClicks_cycles [linear; log] log 1 1 Hnd eq_refl)).
Defined.

(** X3.  The control is never shifted to the right, and when a
    non-zero [maxX] is given it is placed at [min(x, maxX - 95)], so
    that its 95 pixels end at [maxX] at the latest; without [maxX] (or
    with [maxX = 0]) it stays at [x]. *)
Theorem styleLeft_keeps_within_maxX (propsMaxX : option Q) (x : Q) :
  0 <= ScaleSelectorMore.getLeftShiftIfNeeded propsMaxX x
  /\ (forall m, propsMaxX = Some m -> ~ m == 0 ->
        ScaleSelectorMore.styleLeft propsMaxX x
        == Qmin x (m - ScaleSelectorMore.componentWidth)
        /\ ScaleSelectorMore.styleLeft propsMaxX x
           + ScaleSelectorMore.componentWidth <= m)
  /\ (ScaleSelectorMore.maxX propsMaxX == 0 ->
      ScaleSelectorMore.styleLeft propsMaxX x == x).
Proof.
  unfold ScaleSelectorMore.styleLeft, ScaleSelectorMore.getLeftShiftIfNeeded,
    ScaleSelectorMore.componentWidth.
  split; [|split].
  - destruct (Qeq_bool _ 0); [apply Qle_refl|].
    destruct (Qltb _ 0); [apply Qabs_nonneg | apply Qle_refl].
  - intros m -> Hm.
    assert (Hmax : ScaleSelectorMore.maxX (Some m) = m).
    { simpl. destruct (Qeq_bool m 0) eqn:E; [|reflexivity].
      apply Qeq_bool_iff in E. contradiction. }
    rewrite Hmax.
    destruct (Qeq_bool m 0) eqn:E; [apply Qeq_bool_iff in E; contradiction|].
    destruct (Qltb (m - (x + 95)) 0) eqn:Hlt.
    + apply Qltb_lt in Hlt.
      rewrite Qabs_neg by lra.
      rewrite Q.min_r by lra. split; lra.
    + apply Qltb_ge in Hlt.
      rewrite Q.min_l by lra. split; lra.
  - intros Hzero. apply Qeq_bool_iff in Hzero. rewrite Hzero. lra.
Qed.

(** At [x = 600] with [maxX = 640] the control moves left to 545; with
    no [maxX] it stays at 600. *)
Lemma styleLeft_keeps_within_maxX_640 :
  ScaleSelectorMore.styleLeft (Some 640) 600 == 545
  /\ ScaleSelectorMore.styleLeft None 600 == 600.
Proof.
  destruct (styleLeft_keeps_within_maxX (Some 640) 600) as (_ & Hfit & _).
  destruct (styleLeft_keeps_within_maxX None 600) as (_ & _ & Hnone).
  split.
  - rewrite (proj1 (Hfit 640 eq_refl ltac:(discriminate))). reflexivity.
  - apply Hnone. reflexivity.
Defined.

(** ** More about the axis configuration *)

(** X4.  The scale type of a configuration is always one of its scale
    type options, and these never repeat a type; so a click of the
    scale selector over them selects the other type when the type may
    change and the same type when it may not, and the selector is
    shown exactly on an interactive chart whose type may change. *)
Theorem scaleTypeOptions_click (r : AxisSpec.AxisRuntime) (isInteractive : bool) :
  In (AxisSpec.scaleType r) (AxisSpec.scaleTypeOptions r)
  /\ NoDup (AxisSpec.scaleTypeOptions r)
  /\ ScaleSelector.newValue (AxisSpec.scaleTypeOptions r) (AxisSpec.scaleType r)
     = Some (if AxisSpec.canChangeScaleType r
             then otherScaleType (AxisSpec.scaleType r)
             else AxisSpec.scaleType r)
  /\ AxisViews.showControls isInteractive (AxisSpec.scaleTypeOptions r)
     = isInteractive && AxisSpec.canChangeScaleType r.
Proof.
  unfold AxisSpec.scaleTypeOptions, AxisViews.showControls.
  destruct (AxisSpec.canChangeScaleType r), (AxisSpec.scaleType r);
    (split; [simpl; tauto|]);
    (split; [repeat (apply NoDup_cons_2; [rewrite list_elem_of_In; simpl; intuition discriminate|]);
             apply NoDup_nil_2|]);
    split; try reflexivity; now destruct isInteractive.
Qed.

Module NumOrder.

Lemma ltb_leb a b : a <> NaN -> b <> NaN -> Num.ltb a b = negb (Num.leb b a).
Proof.
  destruct a, b; simpl; try congruence; intros _ _; reflexivity.
Qed.

Lemma ltb_NaN_l b : Num.ltb NaN b = false.
Proof. now destruct b. Qed.

Lemma ltb_NaN_r a : Num.ltb a NaN = false.
Proof. now destruct a. Qed.

Lemma min_cases a b :
  a <> NaN -> b <> NaN -> Num.min a b = if Num.leb a b then a else b.
Proof. destruct a, b; try congruence; reflexivity. Qed.

Lemma max_cases a b :
  a <> NaN -> b <> NaN -> Num.max a b = if Num.leb a b then b else a.
Proof. destruct a, b; try congruence; reflexivity. Qed.

End NumOrder.

(** On a log scale a constrained minimum is [Infinity] or a positive
    number, and a constrained maximum is [-Infinity] or positive. *)
Lemma log_constrainedMin (r : AxisSpec.AxisRuntime) :
  AxisSpec.scaleType r = log ->
  AxisSpec.constrainedMin r = PosInf \/ positive (AxisSpec.constrainedMin r).
Proof.
  intros Hlog. unfold AxisSpec.constrainedMin, positive. rewrite Hlog. simpl.
  destruct (AxisSpec.min r) as [[| |q|]|]; simpl; auto.
  destruct (negb (Qeq_bool q 0)) eqn:Hq; simpl.
  - destruct (Qle_bool q 0) eqn:Hle; [now left|]. right. simpl.
    unfold Qltb. now rewrite Hle.
  - now left.
Qed.

Lemma log_constrainedMax (r : AxisSpec.AxisRuntime) :
  AxisSpec.scaleType r = log ->
  AxisSpec.constrainedMax r = NegInf \/ positive (AxisSpec.constrainedMax r).
Proof.
  intros Hlog. unfold AxisSpec.constrainedMax, positive. rewrite Hlog. simpl.
  destruct (AxisSpec.max r) as [[| |q|]|]; simpl; auto.
  destruct (negb (Qeq_bool q 0)) eqn:Hq; simpl.
  - destruct (Qle_bool q 0) eqn:Hle; [now left|]. right. simpl.
    unfold Qltb. now rewrite Hle.
  - now left.
Qed.

(** X5.  On a log scale the constrained bounds are never zero, negative
    or [NaN]: the minimum is [Infinity] or positive, the maximum
    [-Infinity] or positive.  Hence, when the data minimum [a] is
    positive, so is the minimum of the finalized domain, whatever
    minimum was configured. *)
Theorem log_domain_stays_positive
        (r : AxisSpec.AxisRuntime) (defaultDomain : number * number) :
  AxisSpec.scaleType r = log ->
  positive (fst defaultDomain) ->
  (AxisSpec.constrainedMin r = PosInf \/ positive (AxisSpec.constrainedMin r))
  /\ (AxisSpec.constrainedMax r = NegInf \/ positive (AxisSpec.constrainedMax r))
  /\ positive (fst (AxisSpec.domain_of (AxisSpec.toSpec r defaultDomain))).
Proof.
  intros Hlog Ha.
  pose proof (log_constrainedMin r Hlog) as Hmin.
  split; [exact Hmin|]. split; [now apply log_constrainedMax|].
  simpl. unfold positive in *.
  destruct defaultDomain as [a b]. simpl in *.
  destruct Hmin as [->|Hmin].
  - rewrite NumFacts.min_PosInf_l; [exact Ha|]. intros ->. discriminate.
  - destruct (AxisSpec.constrainedMin r) as [| |q|], a as [| |p|];
      simpl in *; try discriminate; try assumption.
    now destruct (Qle_bool q p).
Qed.

(** A log axis with the configured minimum [-3] keeps the data minimum
    [2]. *)
Lemma log_domain_stays_positive_sample :
  positive (fst (AxisSpec.domain_of
                   (AxisSpec.toSpec invalidLogRuntime (Fin 2, Fin 50)))).
Proof.
  refine (proj2 (proj2 (log_domain_stays_positive
                          invalidLogRuntime (Fin 2, Fin 50) _ _)));
    reflexivity.
Defined.

(** X6.  Without [NaN], the finalized domain is the smallest interval
    that contains both the constrained bounds and the default domain:
    its minimum is the smaller of the constrained minimum and the data
    minimum, its maximum the larger of the two maxima.  A configured
    minimum above the data minimum, or maximum below the data maximum,
    thus has no effect. *)
Theorem toSpec_domain_is_hull
        (r : AxisSpec.AxisRuntime) (defaultDomain : number * number) :
  AxisSpec.min r <> Some NaN ->
  AxisSpec.max r <> Some NaN ->
  fst defaultDomain <> NaN ->
  snd defaultDomain <> NaN ->
  let d := AxisSpec.domain_of (AxisSpec.toSpec r defaultDomain) in
  Num.leb (fst d) (AxisSpec.constrainedMin r) = true
  /\ Num.leb (AxisSpec.constrainedMax r) (snd d) = true
  /\ (fst d = AxisSpec.constrainedMin r \/ fst d = fst defaultDomain)
  /\ (snd d = AxisSpec.constrainedMax r \/ snd d = snd defaultDomain)
  /\ (Num.leb (fst defaultDomain) (AxisSpec.constrainedMin r) = true ->
      Num.eq (fst d) (fst defaultDomain))
  /\ (Num.leb (AxisSpec.constrainedMax r) (snd defaultDomain) = true ->
      snd d = snd defaultDomain).
Proof.
  intros Hmin Hmax Ha Hb d. subst d. simpl.
  pose proof (constrainedMin_not_NaN r Hmin) as Hcmin.
  pose proof (constrainedMax_not_NaN r Hmax) as Hcmax.
  rewrite (NumOrder.min_cases _ _ Hcmin Ha), (NumOrder.max_cases _ _ Hcmax Hb).
  destruct defaultDomain as [a b]. simpl in *.
  set (cmin := AxisSpec.constrainedMin r) in *.
  set (cmax := AxisSpec.constrainedMax r) in *.
  split; [|split; [|split; [|split; [|split]]]].
  - destruct (Num.leb cmin a) eqn:E; [now apply NumFacts.leb_refl|].
    now apply NumFacts.leb_total.
  - destruct (Num.leb cmax b) eqn:E; [exact E | now apply NumFacts.leb_refl].
  - destruct (Num.leb cmin a); auto.
  - destruct (Num.leb cmax b); auto.
  - intros Hle. destruct (Num.leb cmin a) eqn:E.
    + destruct cmin, a; simpl in *; try congruence; try exact I.
      apply Qle_bool_iff in Hle, E. now apply Qle_antisym.
    + destruct a; simpl; try congruence; try exact I.
  - intros Hle. now rewrite Hle.
Qed.

(** A configured range [0, 10] does not crop the data range [-5, 20],
    and widens the data range [3, 7]. *)
Lemma toSpec_domain_is_hull_sample :
  AxisSpec.domain_of (AxisSpec.toSpec boundedRuntime (Fin (-5), Fin 20))
  = (Fin (-5), Fin 20)
  /\ Num.leb (fst (AxisSpec.domain_of
                     (AxisSpec.toSpec boundedRuntime (Fin 3, Fin 7))))
             (AxisSpec.constrainedMin boundedRuntime) = true.
Proof.
  split; [reflexivity|].
  refine (proj1 (toSpec_domain_is_hull boundedRuntime (Fin 3, Fin 7) _ _ _ _));
    simpl; discriminate.
Defined.

(** X7.  The three revisions of [toSpec] finalize the same domain: the
    revision with [??] always agrees with the current one, and the
    earlier revision with [defaultTo] agrees with it whenever the
    configured bounds are not [NaN]. *)
Theorem toSpec_revisions_agree
        (r : AxisSpec.AxisRuntime) (defaultDomain : number * number) :
  AxisSpecOptional.toSpec r defaultDomain = AxisSpec.toSpec r defaultDomain
  /\ (AxisSpec.min r <> Some NaN ->
      AxisSpec.max r <> Some NaN ->
      AxisSpec.domain_of (AxisSpecLegacy.toSpec (asLegacy r) defaultDomain)
      = AxisSpec.domain_of (AxisSpec.toSpec r defaultDomain)).
Proof.
  split.
  - unfold AxisSpecOptional.toSpec, AxisSpec.toSpec. f_equal.
    unfold AxisSpecOptional.domain, AxisSpec.domain,
      AxisSpecOptional.constrainedMin, AxisSpecOptional.constrainedMax,
      AxisSpec.constrainedMin, AxisSpec.constrainedMax. simpl.
    now destruct (_ && _), (_ && _).
  - intros Hmin Hmax.
    unfold AxisSpecLegacy.toSpec, AxisSpec.toSpec,
      AxisSpecLegacy.domain, AxisSpec.domain,
      AxisSpecLegacy.constrainedMin, AxisSpecLegacy.constrainedMax,
      AxisSpec.constrainedMin, AxisSpec.constrainedMax. simpl.
    destruct (AxisSpec.min r) as [[]|], (AxisSpec.max r) as [[]|];
      try congruence; simpl;
      destruct (ScaleType_eqb (AxisSpec.scaleType r) log); simpl;
      repeat match goal with |- context [if ?c then _ else _] => destruct c end;
      reflexivity.
Qed.

(** The revisions agree on the bounded sample configuration. *)
Lemma toSpec_revisions_agree_sample :
  AxisSpec.domain_of (AxisSpecLegacy.toSpec (asLegacy boundedRuntime) (Fin 3, Fin 7))
  = (Fin 0, Fin 10).
Proof.
  rewrite (proj2 (toSpec_revisions_agree boundedRuntime (Fin 3, Fin 7)));
    [reflexivity | discriminate | discriminate].
Defined.

Lemma constrainedMin_optional (r : AxisSpec.AxisRuntime) :
  AxisSpec.constrainedMin r
  = Num.nullish (AxisSpecOptional.constrainedMin r) PosInf.
Proof.
  unfold AxisSpec.constrainedMin, AxisSpecOptional.constrainedMin.
  now destruct (_ && _).
Qed.

Lemma constrainedMax_optional (r : AxisSpec.AxisRuntime) :
  AxisSpec.constrainedMax r
  = Num.nullish (AxisSpecOptional.constrainedMax r) NegInf.
Proof.
  unfold AxisSpec.constrainedMax, AxisSpecOptional.constrainedMax.
  now destruct (_ && _).
Qed.

(** X8.  In the revision with optional bounds [isOutsideDomain] reports
    no value as outside when neither bound is configured; whatever it
    reports as outside the current revision reports as well; and the
    two agree as soon as both constrained bounds are defined. *)
Theorem isOutsideDomain_optional_bounds (r : AxisSpec.AxisRuntime) (v : number) :
  (AxisSpec.min r = None -> AxisSpec.max r = None ->
   AxisSpecOptional.isOutsideDomain r v = false)
  /\ (AxisSpecOptional.isOutsideDomain r v = true ->
      AxisSpec.isOutsideDomain r v = true)
  /\ (is_Some (AxisSpecOptional.constrainedMin r) ->
      is_Some (AxisSpecOptional.constrainedMax r) ->
      AxisSpecOptional.isOutsideDomain r v = AxisSpec.isOutsideDomain r v).
Proof.
  unfold AxisSpecOptional.isOutsideDomain, AxisSpec.isOutsideDomain.
  rewrite constrainedMin_optional, constrainedMax_optional.
  split; [|split].
  - intros Hmin Hmax.
    unfold AxisSpecOptional.constrainedMin, AxisSpecOptional.constrainedMax.
    rewrite Hmin, Hmax.
    repeat match goal with |- context [if ?c then _ else _] => destruct c end;
      reflexivity.
  - intros Hor. apply orb_true_iff in Hor. apply orb_true_iff.
    destruct (AxisSpecOptional.constrainedMin r),
      (AxisSpecOptional.constrainedMax r); simpl in *;
      destruct Hor as [Hl|Hr]; try discriminate; auto.
  - intros [m ->] [m' ->]. reflexivity.
Qed.

(** With the bounds [0] and [10] both revisions report [11] as
    outside. *)
Lemma isOutsideDomain_optional_bounds_sample :
  AxisSpecOptional.isOutsideDomain boundedRuntime (Fin 11) = true
  /\ AxisSpec.isOutsideDomain boundedRuntime (Fin 11) = true
  /\ AxisSpecOptional.isOutsideDomain (unboundedRuntime linear) (Fin 11) = false.
Proof.
  destruct (isOutsideDomain_optional_bounds boundedRuntime (Fin 11))
    as (_ & Himp & _).
  destruct (isOutsideDomain_optional_bounds (unboundedRuntime linear) (Fin 11))
    as (Hnone & _ & _).
  split; [reflexivity|]. split.
  - apply Himp. reflexivity.
  - apply Hnone; reflexivity.
Defined.

(** X9.  [isOutsideDomain] never reports [NaN] as outside; for any
    other value, and constrained bounds that are not [NaN], a value is
    inside exactly when it lies between the two constrained bounds. *)
Theorem isOutsideDomain_is_interval_test (r : AxisSpec.AxisRuntime) (v : number) :
  AxisSpec.isOutsideDomain r NaN = false
  /\ (v <> NaN ->
      AxisSpec.constrainedMin r <> NaN ->
      AxisSpec.constrainedMax r <> NaN ->
      (AxisSpec.isOutsideDomain r v = false
       <-> Num.leb (AxisSpec.constrainedMin r) v = true
           /\ Num.leb v (AxisSpec.constrainedMax r) = true)).
Proof.
  unfold AxisSpec.isOutsideDomain, Num.gtb. split.
  - now rewrite NumOrder.ltb_NaN_l, NumOrder.ltb_NaN_r.
  - intros Hv Hmin Hmax.
    rewrite (NumOrder.ltb_leb _ _ Hv Hmin), (NumOrder.ltb_leb _ _ Hmax Hv).
    rewrite orb_false_iff, !negb_false_iff. reflexivity.
Qed.

(** With the bounds [0] and [10] the value [10] is inside. *)
Lemma isOutsideDomain_is_interval_test_sample :
  AxisSpec.isOutsideDomain boundedRuntime (Fin 10) = false.
Proof.
  apply (proj2 (isOutsideDomain_is_interval_test boundedRuntime (Fin 10)));
    try discriminate.
  split; reflexivity.
Defined.

(** ** More about the animation of the domains *)




Lemma currentDomain_zero_linear (spec : AxisBox.AxisSpec) (prev target : Q * Q) a :
  a == 0 -> AxisBox.scaleType spec = linear ->
  domain_eq (AxisBox.currentDomain spec prev target (Some a)) prev.
Proof.
  intros Ha Hst.
  pose proof (currentDomain_at_zero spec prev target a Ha) as [Hmin Hmax].
  rewrite Hst in Hmin. simpl in Hmin, Hmax.
  split; [|exact Hmax]. rewrite Hmin. unfold lerp. lra.
Qed.

Lemma currentDomain_zero_log (spec : AxisBox.AxisSpec) (prev target : Q * Q) a :
  a == 0 -> AxisBox.scaleType spec = log ->
  domain_eq (AxisBox.currentDomain spec prev target (Some a))
            (lerp (fst prev) (fst target) 0.01, snd prev).
Proof.
  intros Ha Hst.
  pose proof (currentDomain_at_zero spec prev target a Ha) as [Hmin Hmax].
  rewrite Hst in Hmin. simpl in Hmin, Hmax. split; assumption.
Qed.


(** X11.  A change of the configured domains starts the tween where the
    rendering is: on a linear axis the current domain right after the
    change is the current domain before it; on a log axis the maximum
    is, while the minimum has moved one hundredth of the way to the new
    minimum.  The progress is back at 0 and the new target is the
    configured domain. *)
Theorem onDomainChange_starts_where_it_is (ab : AxisBox.AxisBox) :
  let ab' := AxisBox.onDomainChange ab in
  let ySpec := AxisBox.yAxisSpec (AxisBox.props ab) in
  let xSpec := AxisBox.xAxisSpec (AxisBox.props ab) in
  AxisBox.animProgress ab' = Some 0
  /\ AxisBox.targetYDomain ab' = AxisBox.domain ySpec
  /\ AxisBox.targetXDomain ab' = AxisBox.domain xSpec
  /\ (AxisBox.scaleType ySpec = linear ->
      domain_eq (AxisBox.currentYDomain ab') (AxisBox.currentYDomain ab))
  /\ (AxisBox.scaleType xSpec = linear ->
      domain_eq (AxisBox.currentXDomain ab') (AxisBox.currentXDomain ab))
  /\ (AxisBox.scaleType ySpec = log ->
      domain_eq (AxisBox.currentYDomain ab')
                (lerp (fst (AxisBox.currentYDomain ab))
                      (fst (AxisBox.domain ySpec)) 0.01,
                 snd (AxisBox.currentYDomain ab)))
  /\ (AxisBox.scaleType xSpec = log ->
      domain_eq (AxisBox.currentXDomain ab')
                (lerp (fst (AxisBox.currentXDomain ab))
                      (fst (AxisBox.domain xSpec)) 0.01,
                 snd (AxisBox.currentXDomain ab))).
Proof.
  intros ab' ySpec xSpec.
  do 3 (split; [reflexivity|]).
  assert (Hy : AxisBox.currentYDomain ab'
               = AxisBox.currentDomain ySpec (AxisBox.currentYDomain ab)
                                       (AxisBox.domain ySpec) (Some 0))
    by reflexivity.
  assert (Hx : AxisBox.currentXDomain ab'
               = AxisBox.currentDomain xSpec (AxisBox.currentXDomain ab)
                                       (AxisBox.domain xSpec) (Some 0))
    by reflexivity.
  rewrite Hy, Hx.
  split; [|split; [|split]]; intros Hst.
  - now apply currentDomain_zero_linear.
  - now apply currentDomain_zero_linear.
  - now apply currentDomain_zero_log.
  - now apply currentDomain_zero_log.
Qed.

(** Half-way from [1, 100] to [1, 300] the linear axes are redirected
    to [1, 500]: the tween restarts at the rendered domain [1, 200]. *)
Lemma onDomainChange_starts_where_it_is_sample :
  domain_eq (AxisBox.currentYDomain redirectedTween) (1, 200)
  /\ domain_eq (AxisBox.currentYDomain (AxisBox.onDomainChange redirectedTween))
               (AxisBox.currentYDomain redirectedTween)
  /\ AxisBox.targetYDomain (AxisBox.onDomainChange redirectedTween) = (1, 500).
Proof.
  destruct (onDomainChange_starts_where_it_is redirectedTween)
    as (_ & Htarget & _ & Hlin & _).
  split; [split; reflexivity|]. split.
  - apply Hlin. reflexivity.
  - exact Htarget.
Defined.








(** ** More about the sizing of the two axes *)

Section ThicknessFacts.

Context `{Collaborators}.

Lemma labelOffset_bounds (k : Axis.Kind) (props : Axis.AxisProps) :
  (forall w fs text, 0 <= textWrapHeight w fs text) ->
  0 <= Axis.labelOffset k props
  /\ (Axis.labelText props <> EmptyString -> 10 <= Axis.labelOffset k props).
Proof.
  intros Hwrap. unfold Axis.labelOffset, Axis.labelHeight, Axis.labelPadding.
  destruct (Axis.labelText props) as [|c text].
  - split; [apply Qle_refl | congruence].
  - pose proof (Hwrap (Axis.labelWidth k props) (Axis.labelFontSize props)
                      (String c text)) as Hh.
    destruct k; split; intros; lra.
Qed.

(** X15.  When the measured sizes of texts are not negative, either
    axis reserves at least 5 pixels, and at least 15 when it has a
    label; the inner bounds then share the top and the right edge of
    the outer bounds and lie at least 5 pixels inside their left and
    bottom edges. *)
Theorem axis_thickness_at_least_padding (ab : AxisBox.AxisBox) :
  (forall t fs, 0 <= Bounds.height (forText t fs)) ->
  (forall t fs, 0 <= Bounds.width (forText t fs)) ->
  (forall w fs text, 0 <= textWrapHeight w fs text) ->
  let B := AxisBox.bounds (AxisBox.props ab) in
  let inner := AxisBox.innerBounds ab in
  5 <= AxisBox.xAxisHeight ab
  /\ 5 <= AxisBox.yAxisWidth ab
  /\ (AxisBox.label (AxisBox.xAxisSpec (AxisBox.props ab)) <> EmptyString ->
      15 <= AxisBox.xAxisHeight ab)
  /\ (AxisBox.label (AxisBox.yAxisSpec (AxisBox.props ab)) <> EmptyString ->
      15 <= AxisBox.yAxisWidth ab)
  /\ Bounds.left B + 5 <= Bounds.left inner
  /\ Bounds.right inner == Bounds.right B
  /\ Bounds.top inner = Bounds.top B
  /\ Bounds.bottom inner + 5 <= Bounds.bottom B.
Proof.
  intros Hheight Hwidth Hwrap B inner.
  destruct (labelOffset_bounds Axis.Horizontal (AxisBox.xScratchAxis ab) Hwrap)
    as [Hx0 Hx10].
  destruct (labelOffset_bounds Axis.Vertical (AxisBox.yScratchAxis ab) Hwrap)
    as [Hy0 Hy10].
  assert (Hh : AxisBox.xAxisHeight ab
               = Bounds.height
                   (forText (head (getFormattedTicks
                                     (Axis.scale (AxisBox.xScratchAxis ab))))
                            (Axis.tickFontSize (AxisBox.xScratchAxis ab)))
                 + Axis.labelOffset Axis.Horizontal (AxisBox.xScratchAxis ab) + 5)
    by reflexivity.
  assert (Hw : AxisBox.yAxisWidth ab
               = Bounds.width
                   (forText (Lodash.maxBy String.length
                               (getFormattedTicks
                                  (Axis.scale (AxisBox.yScratchAxis ab))))
                            (Axis.tickFontSize (AxisBox.yScratchAxis ab)))
                 + Axis.labelOffset Axis.Vertical (AxisBox.yScratchAxis ab) + 5)
    by reflexivity.
  pose proof (Hheight (head (getFormattedTicks
                               (Axis.scale (AxisBox.xScratchAxis ab))))
                      (Axis.tickFontSize (AxisBox.xScratchAxis ab))) as Hth.
  pose proof (Hwidth (Lodash.maxBy String.length
                        (getFormattedTicks
                           (Axis.scale (AxisBox.yScratchAxis ab))))
                     (Axis.tickFontSize (AxisBox.yScratchAxis ab))) as Htw.
  assert (H5h : 5 <= AxisBox.xAxisHeight ab) by (rewrite Hh; lra).
  assert (H5w : 5 <= AxisBox.yAxisWidth ab) by (rewrite Hw; lra).
  split; [exact H5h|]. split; [exact H5w|].
  split; [intros Hl; specialize (Hx10 Hl); rewrite Hh; lra|].
  split; [intros Hl; specialize (Hy10 Hl); rewrite Hw; lra|].
  unfold inner, AxisBox.innerBounds, Bounds.padLeft, Bounds.padBottom,
    Bounds.left, Bounds.right, Bounds.top, Bounds.bottom.
  simpl. fold B. repeat split; try reflexivity; lra.
Qed.

End ThicknessFacts.

(** With labels measured as 30 by 10 pixels the unlabelled sample box
    keeps 15 pixels for the x axis and 35 for the y axis. *)
Lemma axis_thickness_at_least_padding_sample :
  5 <= @AxisBox.xAxisHeight noTicksScale midwayTween
  /\ @AxisBox.innerBounds noTicksScale midwayTween = Bounds.mk (0 + (30 + 0 + 5)) 0 (400 - (30 + 0 + 5)) (300 - (10 + 0 + 5)).
Proof.
  split; [|reflexivity].
  refine (proj1 (@axis_thickness_at_least_padding noTicksScale midwayTween _ _ _));
    intros; discriminate.
Defined.

(** ** More about the collision pass *)

Lemma collisionPass_length (k : Axis.Kind) (ps : list Axis.TickPlacement) :
  length (Axis.collisionPass k ps) = length ps.
Proof. apply evolves_length, collisionPass_evolves. Qed.

(** The first placement is never hidden by the pass. *)
Lemma collisionPass_first_survives (k : Axis.Kind) (ps : list Axis.TickPlacement) t :
  (forall t, In t ps -> Axis.isHidden t = false) ->
  Axis.collisionPass k ps !! 0%nat = Some t ->
  Axis.isHidden t = false.
Proof.
  intros Hfresh H0. destruct (Axis.isHidden t) eqn:Hh; [|reflexivity].
  destruct (collisionPass_justified k ps Hfresh 0%nat t H0 Hh)
    as (i & _ & Hlt & _). lia.
Qed.

(** A comparison of a resolved pair changes nothing. *)
Lemma compare_resolved_id (k : Axis.Kind) i j ps :
  resolved k ps i j -> Axis.compare k i j ps = ps.
Proof.
  intros Hres. unfold Axis.compare.
  destruct (ps !! i) as [t1|] eqn:H1; [|reflexivity].
  destruct (ps !! j) as [t2|] eqn:H2; [|reflexivity].
  destruct (i =? j)%nat; [reflexivity|].
  destruct (Axis.isHidden t1) eqn:Hh1; [reflexivity|].
  destruct (Axis.isHidden t2) eqn:Hh2; [reflexivity|]. simpl.
  now rewrite (Hres t1 t2 H1 H2 Hh1 Hh2).
Qed.

Lemma foldl_fixed {A B} (f : A -> B -> A) (a : A) (l : list B) :
  (forall b, In b l -> f a b = a) -> foldl f a l = a.
Proof.
  induction l as [|b l IH]; intros Hfix; simpl; [reflexivity|].
  rewrite (Hfix b) by now left. apply IH. intros b' Hb'. apply Hfix. now right.
Qed.

(** X16.  The collision pass is idempotent: run again on its own
    result, as happens when [ticks] is evaluated again over placements
    it has already marked, it changes nothing. *)
Theorem collisionPass_idempotent (k : Axis.Kind) (ps : list Axis.TickPlacement) :
  Axis.collisionPass k (Axis.collisionPass k ps) = Axis.collisionPass k ps.
Proof.
  set (final := Axis.collisionPass k ps).
  assert (Hres : forall i j, (i < j < length final)%nat -> resolved k final i j).
  { intros i j Hij. unfold final in *. rewrite collisionPass_length in Hij.
    now apply collisionPass_resolved. }
  unfold Axis.collisionPass at 1. apply foldl_fixed.
  intros i Hi. apply in_seq in Hi.
  unfold Axis.innerLoop. apply foldl_fixed.
  intros j Hj. apply in_seq in Hj.
  apply compare_resolved_id, Hres. lia.
Qed.

Lemma length_filter_le {A} (f : A -> bool) (l : list A) :
  (length (List.filter f l) <= length l)%nat.
Proof.
  induction l as [|a l IH]; simpl; [lia|]. destruct (f a); simpl; lia.
Qed.

Section TickFacts.

Context `{Collaborators}.

Lemma tickPlacements_length k props :
  length (Axis.tickPlacements k props) = length (Axis.baseTicks k props).
Proof.
  unfold Axis.tickPlacements. now rewrite length_map, sortBy_length.
Qed.

(** Every placement after the pass is that of a candidate. *)
Lemma collisionPass_from_candidate k props t :
  In t (Axis.collisionPass k (Axis.tickPlacements k props)) ->
  exists c, In c (Axis.baseTicks k props) /\ value c = Axis.tick t.
Proof.
  intros Hin.
  apply list_elem_of_In, list_elem_of_lookup in Hin as [i Hi].
  destruct (evolves_lookup_back _ _ _ _ (collisionPass_evolves k _) Hi)
    as (t0 & Ht0 & Htick & _).
  rewrite tickPlacements_lookup in Ht0.
  destruct (Lodash.sortBy priority (Axis.baseTicks k props) !! i) as [c|] eqn:Hc;
    [|discriminate].
  injection Ht0 as <-. exists c. split; [|now rewrite Htick].
  apply (sortBy_In priority). apply list_elem_of_In, list_elem_of_lookup. eauto.
Qed.

(** X17.  The candidate of highest priority is always shown: the first
    placement in priority order is never hidden, so its tick is
    returned, and [ticks] is empty only when there is no candidate at
    all. *)
Theorem ticks_empty_only_without_candidates (k : Axis.Kind) (props : Axis.AxisProps) :
  (forall c, Lodash.sortBy priority (Axis.baseTicks k props) !! 0%nat = Some c ->
             In (value c) (Axis.ticks k props))
  /\ (Axis.ticks k props = [] <-> Axis.baseTicks k props = []).
Proof.
  assert (Hfirst : forall c,
             Lodash.sortBy priority (Axis.baseTicks k props) !! 0%nat = Some c ->
             In (value c) (Axis.ticks k props)).
  { intros c Hc. apply ticks_In.
    assert (Hp : Axis.tickPlacements k props !! 0%nat
                 = Some (Axis.placement k props c))
      by (rewrite tickPlacements_lookup; now rewrite Hc).
    destruct (collisionPass_evolves k (Axis.tickPlacements k props)) as [_ Hev].
    destruct (Hev _ _ Hp) as (t & Ht & Htick & _).
    exists t. split; [|split].
    - apply list_elem_of_In, list_elem_of_lookup. eauto.
    - apply (collisionPass_first_survives k _ t (tickPlacements_fresh k props) Ht).
    - exact Htick. }
  split; [exact Hfirst|]. split.
  - intros Hempty.
    destruct (Lodash.sortBy priority (Axis.baseTicks k props)) as [|c l] eqn:Hs.
    + apply (f_equal length) in Hs. rewrite sortBy_length in Hs.
      now destruct (Axis.baseTicks k props).
    + specialize (Hfirst c eq_refl). rewrite Hempty in Hfirst. destruct Hfirst.
  - intros Hnone. unfold Axis.ticks, Axis.tickPlacements. now rewrite Hnone.
Qed.

(** X18.  The ticks that are returned are in ascending order, each is
    the value of a candidate, and there are at most as many as there
    are candidates. *)
Theorem ticks_ascending_candidates (k : Axis.Kind) (props : Axis.AxisProps) :
  (forall i j x y, (i < j)%nat ->
     Axis.ticks k props !! i = Some x -> Axis.ticks k props !! j = Some y ->
     x <= y)
  /\ (forall v, In v (Axis.ticks k props) ->
        exists c, In c (Axis.baseTicks k props) /\ value c = v)
  /\ (length (Axis.ticks k props) <= length (Axis.baseTicks k props))%nat.
Proof.
  split; [|split].
  - intros i j x y. apply (sortBy_lookup_le (fun v : Q => v)).
  - intros v Hv. apply ticks_In in Hv as (t & Ht & _ & <-).
    now apply collisionPass_from_candidate.
  - unfold Axis.ticks, Axis.survivors.
    rewrite sortBy_length, length_map.
    etransitivity; [apply length_filter_le|].
    now rewrite collisionPass_length, tickPlacements_length.
Qed.

End TickFacts.

(** Of the crowded candidates the first in priority order, at 0, is
    returned. *)
Lemma ticks_empty_only_without_candidates_crowded :
  In 0 (@Axis.ticks crowdedScale Axis.Horizontal crowdedAxis).
Proof.
  exact (proj1 (@ticks_empty_only_without_candidates
                  crowdedScale Axis.Horizontal crowdedAxis)
               (plainTick 0 1) eq_refl).
Defined.

(** The two ticks returned for the crowded candidates are in order. *)
Lemma ticks_ascending_candidates_crowded :
  @Axis.ticks crowdedScale Axis.Horizontal crowdedAxis = [0; 40]
  /\ (0 : Q) <= 40.
Proof.
  split; [reflexivity|].
  refine (proj1 (@ticks_ascending_candidates
                   crowdedScale Axis.Horizontal crowdedAxis)
                0%nat 1%nat 0 40 _ _ _);
    [lia | reflexivity | reflexivity].
Defined.

Lemma filter_all {A} (f : A -> bool) (l : list A) :
  (forall x, In x l -> f x = true) -> List.filter f l = l.
Proof.
  induction l as [|a l IH]; intros Hall; simpl; [reflexivity|].
  rewrite (Hall a) by now left. f_equal. apply IH. intros x Hx. apply Hall. now right.
Qed.

(** X19.  The pass only hides: it keeps the number of placements, the
    tick and the bounds of each, and every hidden flag that was set;
    a placement that survives it is a placement that was there,
    unchanged. *)
Theorem collisionPass_only_hides (k : Axis.Kind) (ps : list Axis.TickPlacement) :
  length (Axis.collisionPass k ps) = length ps
  /\ List.map Axis.tick (Axis.collisionPass k ps) = List.map Axis.tick ps
  /\ List.map Axis.bounds (Axis.collisionPass k ps) = List.map Axis.bounds ps
  /\ (forall i t t', ps !! i = Some t -> Axis.collisionPass k ps !! i = Some t' ->
        Axis.isHidden t = true -> Axis.isHidden t' = true)
  /\ (forall i t', Axis.collisionPass k ps !! i = Some t' ->
        Axis.isHidden t' = false -> ps !! i = Some t').
Proof.
  pose proof (collisionPass_evolves k ps) as Hev.
  pose proof (evolves_length _ _ Hev) as Hlen.
  assert (Hmap : forall {B} (f : Axis.TickPlacement -> B),
             (forall i t t', ps !! i = Some t ->
                Axis.collisionPass k ps !! i = Some t' -> f t' = f t) ->
             List.map f (Axis.collisionPass k ps) = List.map f ps).
  { intros B f Hf. apply list_eq. intros i. rewrite !lookup_map.
    destruct (ps !! i) as [t|] eqn:Hi.
    - destruct Hev as [_ Hev]. destruct (Hev i t Hi) as (t' & Ht' & _).
      rewrite Ht'. simpl. f_equal. now apply (Hf i).
    - apply lookup_ge_None in Hi. rewrite <- Hlen in Hi.
      apply lookup_ge_None in Hi. now rewrite Hi. }
  assert (Hpoint : forall i t t', ps !! i = Some t ->
             Axis.collisionPass k ps !! i = Some t' ->
             Axis.tick t' = Axis.tick t /\ Axis.bounds t' = Axis.bounds t
             /\ (Axis.isHidden t = true -> Axis.isHidden t' = true)).
  { intros i t t' Hi Hi'. destruct Hev as [_ Hev].
    destruct (Hev i t Hi) as (t'' & Ht'' & Hrest).
    assert (t'' = t') as -> by congruence. exact Hrest. }
  split; [exact Hlen|].
  split; [apply Hmap; intros i t t' Hi Hi'; now apply (Hpoint i t t')|].
  split; [apply Hmap; intros i t t' Hi Hi'; now apply (Hpoint i t t')|].
  split; [intros i t t' Hi Hi'; now apply (Hpoint i t t')|].
  intros i t' Hi' Hh'.
  destruct (evolves_lookup_back _ _ _ _ Hev Hi') as (t & Hi & Htick & Hb & Hh).
  rewrite Hi. f_equal. specialize (Hh Hh').
  destruct t, t'. simpl in *. congruence.
Qed.

(** The ticks of the crowded placements are the same after the pass. *)
Lemma collisionPass_only_hides_crowded :
  List.map Axis.tick crowdedResult = [0; 40; 20].
Proof.
  unfold crowdedResult.
  rewrite (proj1 (proj2 (collisionPass_only_hides Axis.Horizontal crowdedPlacements))).
  reflexivity.
Defined.

(** ** More about the order of the placements *)

Lemma insertBy_Permutation {A} (key : A -> Q) a (l : list A) :
  Permutation (Lodash.insertBy key a l) (a :: l).
Proof.
  induction l as [|b l IH]; simpl; [reflexivity|].
  destruct (Qle_bool (key a) (key b)); [reflexivity|].
  rewrite IH. apply perm_swap.
Qed.

Lemma sortBy_Permutation {A} (key : A -> Q) (l : list A) :
  Permutation (Lodash.sortBy key l) l.
Proof.
  induction l as [|a l IH]; simpl; [reflexivity|].
  rewrite insertBy_Permutation. now constructor.
Qed.

Section OrderFacts.

Context `{Collaborators}.

(** X20.  The placements are the candidates rearranged: one placement
    per candidate, in ascending order of priority number, candidates
    of equal priority in the order in which [baseTicks] lists them;
    none is hidden to begin with. *)
Theorem tickPlacements_sorted_stably (k : Axis.Kind) (props : Axis.AxisProps) :
  exists sorted,
    Axis.tickPlacements k props = List.map (Axis.placement k props) sorted
    /\ Permutation sorted (Axis.baseTicks k props)
    /\ (forall i j x y, (i < j)%nat -> sorted !! i = Some x -> sorted !! j = Some y ->
                        priority x <= priority y)
    /\ (forall p, List.filter (fun x => Qeq_bool (priority x) p) sorted
                  = List.filter (fun x => Qeq_bool (priority x) p)
                                (Axis.baseTicks k props))
    /\ (forall t, In t (Axis.tickPlacements k props) -> Axis.isHidden t = false).
Proof.
  exists (Lodash.sortBy priority (Axis.baseTicks k props)).
  split; [reflexivity|]. split; [apply sortBy_Permutation|].
  split; [intros i j x y; apply sortBy_lookup_le|].
  split; [intros p; apply sortBy_stable|].
  apply tickPlacements_fresh.
Qed.

(** X21.  In the result of the pass over [tickPlacements] a placement
    is hidden exactly when a placement that precedes it in priority
    order, whose candidate therefore has at most its priority number,
    survives and intersects it. *)
Theorem hidden_exactly_by_earlier_survivor
        (k : Axis.Kind) (props : Axis.AxisProps)
        (j : nat) (c2 : Tickmark) (t2 : Axis.TickPlacement) :
  let sorted := Lodash.sortBy priority (Axis.baseTicks k props) in
  let final := Axis.collisionPass k (Axis.tickPlacements k props) in
  sorted !! j = Some c2 ->
  final !! j = Some t2 ->
  (Axis.isHidden t2 = true
   <-> exists i c1 t1,
         (i < j)%nat /\ sorted !! i = Some c1 /\ priority c1 <= priority c2
         /\ final !! i = Some t1 /\ Axis.isHidden t1 = false
         /\ Axis.doIntersect k (Axis.bounds t1) (Axis.bounds t2) = true).
Proof.
  intros sorted final Hc2 Ht2. split.
  - intros Hh.
    destruct (collisionPass_justified k (Axis.tickPlacements k props)
                (tickPlacements_fresh k props) j t2 Ht2 Hh)
      as (i & t1 & Hlt & _ & Hi & Hh1 & Hint).
    assert (Hlen : (i < length sorted)%nat).
    { apply lookup_lt_Some in Hc2. lia. }
    apply lookup_lt_is_Some in Hlen as [c1 Hc1].
    exists i, c1, t1. repeat split; try assumption.
    exact (sortBy_lookup_le priority (Axis.baseTicks k props) i j c1 c2
             Hlt Hc1 Hc2).
  - intros (i & c1 & t1 & Hlt & _ & _ & Hi & Hh1 & Hint).
    destruct (Axis.isHidden t2) eqn:Hh2; [reflexivity|].
    rewrite (collisionPass_pairwise k (Axis.tickPlacements k props) i j t1 t2)
      in Hint; auto. lia.
Qed.

End OrderFacts.

(** The crowded candidates are placed in the order 0, 40, 20. *)
Lemma tickPlacements_sorted_stably_crowded :
  List.map Axis.tick crowdedPlacements = [0; 40; 20]
  /\ exists sorted,
       crowdedPlacements
       = List.map (@Axis.placement crowdedScale Axis.Horizontal crowdedAxis) sorted
       /\ Permutation sorted (List.map obj crowdedTicks).
Proof.
  split; [reflexivity|].
  destruct (@tickPlacements_sorted_stably crowdedScale Axis.Horizontal crowdedAxis)
    as (sorted & Heq & Hperm & _).
  exists sorted. split; [exact Heq | exact Hperm].
Defined.

(** Of the crowded candidates the one at 20, last in priority order,
    is hidden, by a placement that precedes it and survives. *)
Lemma hidden_exactly_by_earlier_survivor_crowded :
  exists t2, crowdedResult !! 2%nat = Some t2
    /\ Axis.tick t2 = 20
    /\ Axis.isHidden t2 = true
    /\ exists i c1 t1,
         (i < 2)%nat
         /\ Lodash.sortBy priority
              (@Axis.baseTicks crowdedScale Axis.Horizontal crowdedAxis) !! i
            = Some c1
         /\ priority c1 <= priority (plainTick 20 2)
         /\ crowdedResult !! i = Some t1
         /\ Axis.isHidden t1 = false
         /\ Axis.doIntersect Axis.Horizontal (Axis.bounds t1) (Axis.bounds t2) = true.
Proof.
  eexists. split; [reflexivity|]. split; [reflexivity|]. split; [reflexivity|].
  refine (proj1 (@hidden_exactly_by_earlier_survivor
                   crowdedScale Axis.Horizontal crowdedAxis 2%nat
                   (plainTick 20 2) _ eq_refl eq_refl) eq_refl).
Defined.

(** ** More about the tick candidates *)

Lemma uniq_NoDup_id {A} (l : list (Obj A)) :
  NoDup (List.map addr l) -> Lodash.uniq l = l.
Proof.
  induction l as [|a l IH]; simpl; [reflexivity|].
  intros Hnd. apply NoDup_cons_1_1 in Hnd as Hnotin.
  apply NoDup_cons_1_2 in Hnd. f_equal. rewrite (IH Hnd).
  apply filter_all. intros x Hx. apply negb_true_iff, Nat.eqb_neq.
  intros Heq. apply Hnotin. rewrite <- Heq.
  apply list_elem_of_In. now apply in_map.
Qed.

Lemma NoDup_addr_filter {A} (f : Obj A -> bool) (l : list (Obj A)) :
  NoDup (List.map addr l) -> NoDup (List.map addr (List.filter f l)).
Proof.
  induction l as [|a l IH]; simpl; [auto|].
  intros Hnd. apply NoDup_cons_1_1 in Hnd as Hnotin.
  apply NoDup_cons_1_2 in Hnd.
  destruct (f a); simpl; [|now apply IH].
  apply NoDup_cons_2; [|now apply IH].
  intros Hin. apply Hnotin.
  apply list_elem_of_In in Hin. apply list_elem_of_In.
  apply in_map_iff in Hin as (o & Ho & Hin). apply filter_In in Hin as [Hin _].
  rewrite <- Ho. now apply in_map.
Qed.

Lemma fresh_not_In {A} (l : list (Obj A)) :
  ~ In (Lodash.fresh l) (List.map addr l).
Proof.
  intros Hin. apply in_map_iff in Hin as (o & Ho & Hin).
  apply fresh_above in Hin. lia.
Qed.

Lemma NoDup_addr_snoc_fresh {A} (l : list (Obj A)) (e : A) :
  NoDup (List.map addr l) ->
  NoDup (List.map addr (l ++ [mkObj (Lodash.fresh l) e])).
Proof.
  intros Hnd. rewrite map_app. simpl.
  apply NoDup_app. split; [exact Hnd|]. split; [|apply NoDup_singleton].
  intros a Ha Hin. apply list_elem_of_In in Ha, Hin.
  destruct Hin as [<-|[]]. now apply (fresh_not_In l).
Qed.

Section CandidateShape.

Context `{Collaborators}.

(** Where the values that [ticks] returns come from. *)
Lemma ticks_origin (k : Axis.Kind) (props : Axis.AxisProps) (v : Q) :
  In v (Axis.ticks k props) ->
  let d := scale_domain (Axis.scale props) in
  (exists o, In o (getTickValues (Axis.scale props))
             /\ gridLineOnly (obj o) = false /\ value (obj o) = v)
  \/ (k = Axis.Horizontal /\ Axis.isWhole v = true
      /\ (v = fst d \/ (v = snd d /\ hideFractionalTicks (Axis.scale props) = true))).
Proof.
  intros Hv d.
  apply ticks_In in Hv as (t & Ht & _ & <-).
  apply collisionPass_from_candidate in Ht as (c & Hc & <-).
  unfold Axis.baseTicks in Hc. apply in_map_iff in Hc as (o & <- & Ho).
  destruct k.
  - left. apply filter_In in Ho as [Ho Hg]. apply negb_true_iff in Hg.
    exists o. now repeat split.
  - apply horizontalBaseTicks_origin in Ho. fold d in Ho.
    destruct Ho as [[Ho Hg]|[[Hw Ho]|(Hw & Hh & Ho)]].
    + left. exists o. now repeat split.
    + right. rewrite Ho. simpl. split; [reflexivity|]. split; [exact Hw | now left].
    + right. rewrite Ho. simpl. split; [reflexivity|]. split; [exact Hw|].
      right. now split.
Qed.

(** X22.  A tick that is labelled is never one that the scale offers
    for grid lines only: every value that [ticks] returns is that of a
    tick of the scale without [gridLineOnly], or, on the horizontal
    axis, a whole end point of the domain. *)
Theorem ticks_never_gridline_only (k : Axis.Kind) (props : Axis.AxisProps) (v : Q) :
  In v (Axis.ticks k props) ->
  let d := scale_domain (Axis.scale props) in
  (exists o, In o (getTickValues (Axis.scale props))
             /\ gridLineOnly (obj o) = false /\ value (obj o) = v)
  \/ (k = Axis.Horizontal /\ Axis.isWhole v = true
      /\ (v = fst d \/ (v = snd d /\ hideFractionalTicks (Axis.scale props) = true))).
Proof.
  intros Hv d.
  apply ticks_In in Hv as (t & Ht & _ & <-).
  apply collisionPass_from_candidate in Ht as (c & Hc & <-).
  unfold Axis.baseTicks in Hc. apply in_map_iff in Hc as (o & <- & Ho).
  destruct k.
  - left. apply filter_In in Ho as [Ho Hg]. apply negb_true_iff in Hg.
    exists o. now repeat split.
  - apply horizontalBaseTicks_origin in Ho. fold d in Ho.
    destruct Ho as [[Ho Hg]|[[Hw Ho]|(Hw & Hh & Ho)]].
    + left. exists o. now repeat split.
    + right. rewrite Ho. simpl. split; [reflexivity|]. split; [exact Hw | now left].
    + right. rewrite Ho. simpl. split; [reflexivity|]. split; [exact Hw|].
      right. now split.
Qed.

(** X23.  When the tick objects of the scale are distinct objects,
    [uniq] removes nothing: the candidates of the horizontal axis are
    those of the vertical one, preceded by the end point literal for
    the domain minimum when that is whole, and followed by the one for
    the domain maximum when that is whole and fractional ticks are
    hidden. *)
Theorem horizontal_baseTicks_shape (props : Axis.AxisProps) :
  NoDup (List.map addr (getTickValues (Axis.scale props))) ->
  let d := scale_domain (Axis.scale props) in
  let prio := Axis.startEndPrio props in
  Axis.baseTicks Axis.Horizontal props
  = (if Axis.isWhole (fst d) then [Axis.endPointTick (fst d) prio] else [])
    ++ Axis.baseTicks Axis.Vertical props
    ++ (if Axis.isWhole (snd d) && hideFractionalTicks (Axis.scale props)
        then [Axis.endPointTick (snd d) prio] else []).
Proof.
  intros Hnd d prio.
  assert (Hbase : NoDup (List.map addr (Axis.abstractBaseTicks props)))
    by now apply NoDup_addr_filter.
  unfold Axis.baseTicks, Axis.horizontalBaseTicks. fold d. fold prio.
  set (ticks1 := if Axis.isWhole (fst d) then _ else _).
  assert (Hnd1 : NoDup (List.map addr ticks1)).
  { unfold ticks1. destruct (Axis.isWhole (fst d)); [|exact Hbase].
    simpl. apply NoDup_cons_2; [|exact Hbase].
    intros Hin. apply list_elem_of_In in Hin. now apply fresh_not_In in Hin. }
  assert (Hmap1 : List.map obj ticks1
                  = (if Axis.isWhole (fst d)
                     then [Axis.endPointTick (fst d) prio] else [])
                    ++ List.map obj (Axis.abstractBaseTicks props)).
  { unfold ticks1. now destruct (Axis.isWhole (fst d)). }
  destruct (Axis.isWhole (snd d) && hideFractionalTicks (Axis.scale props)).
  - rewrite uniq_NoDup_id by now apply NoDup_addr_snoc_fresh.
    rewrite map_app, Hmap1. simpl. now rewrite <- app_assoc.
  - rewrite uniq_NoDup_id by exact Hnd1.
    rewrite Hmap1. now rewrite app_nil_r.
Qed.

(** X24.  Labels sit on grid lines.  Unless the y scale hides its grid
    lines, [AxisBoxView] draws a grid line at the height of every tick
    label of the vertical axis; unless the x scale hides them, it
    draws one at every tick mark of the horizontal axis that is not
    that of a whole end point of the domain. *)
Theorem grid_lines_under_tick_labels (ab : AxisBox.AxisBox) :
  (hideGridlines (AxisBox.yScale ab) = false ->
   forall y, In y (AxisViews.tickLabelYPositions (AxisBox.verticalAxis ab)) ->
             In y (AxisViews.viewGridLines AxisViews.OrientLeft ab))
  /\ (hideGridlines (AxisBox.xScale ab) = false ->
      forall x, In x (AxisViews.tickMarkXPositions (AxisBox.horizontalAxis ab)) ->
                In x (AxisViews.viewGridLines AxisViews.OrientBottom ab)
                \/ exists v, x = place (AxisBox.xScale ab) v
                             /\ Axis.isWhole v = true
                             /\ (v = fst (scale_domain (AxisBox.xScale ab))
                                 \/ v = snd (scale_domain (AxisBox.xScale ab)))).
Proof.
  assert (Hy : AxisViews.gridScale AxisViews.OrientLeft (AxisBox.yScale ab)
                                   (AxisBox.innerBounds ab) = AxisBox.yScale ab)
    by reflexivity.
  assert (Hx : AxisViews.gridScale AxisViews.OrientBottom (AxisBox.xScale ab)
                                   (AxisBox.innerBounds ab) = AxisBox.xScale ab)
    by reflexivity.
  split.
  - intros Hshow y Hin.
    unfold AxisViews.viewGridLines. rewrite Hshow.
    unfold AxisViews.gridLinePositions. rewrite Hy.
    apply in_map_iff in Hin as (v & <- & Hv).
    apply ticks_origin in Hv.
    destruct Hv as [(o & Ho & _ & <-)|(Hk & _)]; [|discriminate].
    apply in_map_iff. exists o. now split.
  - intros Hshow x Hin.
    unfold AxisViews.viewGridLines. rewrite Hshow.
    unfold AxisViews.gridLinePositions. rewrite Hx.
    apply in_map_iff in Hin as (v & <- & Hv).
    apply ticks_origin in Hv.
    destruct Hv as [(o & Ho & _ & <-)|(_ & Hw & Hend)].
    + left. apply in_map_iff. exists o. now split.
    + right. exists v. split; [reflexivity|]. split; [exact Hw|].
      destruct Hend as [Hend|[Hend _]]; [now left | now right].
Qed.

End CandidateShape.

(** The crowded tick at 0 is a tick of the scale that is not for grid
    lines only. *)
Lemma ticks_never_gridline_only_crowded :
  (exists o, In o crowdedTicks /\ gridLineOnly (obj o) = false /\ value (obj o) = 0)
  \/ (Axis.Horizontal = Axis.Horizontal /\ Axis.isWhole 0 = true
      /\ (0 = 1 # 2 \/ (0 = 81 # 2 /\ false = true))).
Proof.
  apply (@ticks_never_gridline_only crowdedScale Axis.Horizontal crowdedAxis 0).
  left. reflexivity.
Defined.

(** On the log scale over [1, 1000] with the decades 10 and 100 the
    candidates are 1, 10, 100 and 1000, in this order. *)
Lemma horizontal_baseTicks_shape_decades :
  @Axis.baseTicks decadeScale Axis.Horizontal (sampleAxis log (1, 1000) true)
  = [Axis.endPointTick 1 2; plainTick 10 3; plainTick 100 3;
     Axis.endPointTick 1000 2].
Proof.
  rewrite (@horizontal_baseTicks_shape decadeScale (sampleAxis log (1, 1000) true)).
  - reflexivity.
  - simpl. apply NoDup_cons_2; [|apply NoDup_singleton].
    intros Hin. apply list_elem_of_In in Hin. destruct Hin as [Hin|[]]. discriminate.
Defined.

(** In the sample box with the crowded scale the label of the tick at
    0 has a grid line at its height. *)
Lemma grid_lines_under_tick_labels_sample :
  In 0 (@AxisViews.viewGridLines crowdedScale AxisViews.OrientLeft midwayTween).
Proof.
  apply (proj1 (@grid_lines_under_tick_labels crowdedScale midwayTween));
    [reflexivity|].
  left. reflexivity.
Defined.

(** ** Facts about lodash on arrays of values *)

Lemma NoDup_List_filter {A} (f : A -> bool) (l : list A) :
  NoDup l -> NoDup (List.filter f l).
Proof.
  induction l as [|a l IH]; simpl; [auto|].
  intros Hnd. apply NoDup_cons_1_1 in Hnd as Hnotin.
  apply NoDup_cons_1_2 in Hnd.
  destruct (f a); [|now apply IH].
  apply NoDup_cons_2; [|now apply IH].
  intros Hin. apply Hnotin.
  apply list_elem_of_In in Hin. apply list_elem_of_In.
  now apply filter_In in Hin as [Hin _].
Qed.

Section ValueFacts.

Context {A : Type} (eqb : A -> A -> bool).
Hypothesis eqb_eq : forall x y, eqb x y = true <-> x = y.

Lemma eqb_refl_true x : eqb x x = true.
Proof. now apply eqb_eq. Qed.

Lemma includes_In l x : LodashValues.includes eqb l x = true <-> In x l.
Proof.
  unfold LodashValues.includes. rewrite existsb_exists. split.
  - intros (y & Hy & He). apply eqb_eq in He. now subst.
  - intros Hin. exists x. split; [exact Hin | apply eqb_refl_true].
Qed.

Lemma values_uniq_In l x : In x (LodashValues.uniq eqb l) <-> In x l.
Proof.
  induction l as [|a l IH]; simpl; [tauto|]. split.
  - intros [->|Hin]; [now left|]. apply filter_In in Hin as [Hin _].
    right. now apply IH.
  - intros [->|Hin]; [now left|].
    destruct (eqb x a) eqn:He.
    + apply eqb_eq in He. now left.
    + right. apply filter_In. split; [now apply IH | now rewrite He].
Qed.

Lemma values_uniq_NoDup l : NoDup (LodashValues.uniq eqb l).
Proof.
  induction l as [|a l IH]; simpl; [apply NoDup_nil_2|].
  apply NoDup_cons_2; [|now apply NoDup_List_filter].
  intros Hin. apply list_elem_of_In, filter_In in Hin as [_ Hne].
  now rewrite eqb_refl_true in Hne.
Qed.

Lemma values_uniq_length_le l :
  (length (LodashValues.uniq eqb l) <= length l)%nat.
Proof.
  induction l as [|a l IH]; simpl; [lia|].
  pose proof (length_filter_le (fun y => negb (eqb y a)) (LodashValues.uniq eqb l)).
  lia.
Qed.

Lemma values_uniq_id l : NoDup l -> LodashValues.uniq eqb l = l.
Proof.
  induction l as [|a l IH]; simpl; [reflexivity|].
  intros Hnd. apply NoDup_cons_1_1 in Hnd as Hnotin.
  apply NoDup_cons_1_2 in Hnd. f_equal. rewrite (IH Hnd).
  apply filter_all. intros x Hx. apply negb_true_iff.
  destruct (eqb x a) eqn:He; [|reflexivity].
  apply eqb_eq in He. subst. exfalso. apply Hnotin. now apply list_elem_of_In.
Qed.

Lemma filter_length_all (f : A -> bool) l :
  length (List.filter f l) = length l -> forall x, In x l -> f x = true.
Proof.
  induction l as [|a l IH]; simpl; [tauto|].
  pose proof (length_filter_le f l) as Hle.
  destruct (f a) eqn:Hf; simpl; intros Hlen x [<-|Hin]; try lia; auto.
Qed.

Lemma values_uniq_length_NoDup l :
  length (LodashValues.uniq eqb l) = length l -> NoDup l.
Proof.
  induction l as [|a l IH]; simpl; [intros _; apply NoDup_nil_2|].
  intros Hlen.
  pose proof (length_filter_le (fun y => negb (eqb y a)) (LodashValues.uniq eqb l))
    as Hle1.
  pose proof (values_uniq_length_le l) as Hle2.
  assert (Hf : length (List.filter (fun y => negb (eqb y a)) (LodashValues.uniq eqb l))
               = length (LodashValues.uniq eqb l)) by lia.
  apply NoDup_cons_2; [|apply IH; lia].
  intros Hin. apply list_elem_of_In, values_uniq_In in Hin.
  pose proof (filter_length_all _ _ Hf a Hin) as Hne. simpl in Hne.
  now rewrite eqb_refl_true in Hne.
Qed.

Lemma without_In a vs x :
  In x (LodashValues.without eqb a vs) <-> In x a /\ ~ In x vs.
Proof.
  unfold LodashValues.without. rewrite filter_In, negb_true_iff.
  rewrite <- (includes_In vs x).
  destruct (LodashValues.includes eqb vs x); intuition congruence.
Qed.

(** [intersection(a, b).length === a.length] holds exactly when [a]
    has no repetition and lies within [b]. *)
Lemma intersection_full a b :
  length (LodashValues.intersection eqb a b) = length a
  <-> NoDup a /\ (forall x, In x a -> In x b).
Proof.
  unfold LodashValues.intersection. split.
  - intros Hlen.
    pose proof (values_uniq_length_le (List.filter (LodashValues.includes eqb b) a))
      as Hle1.
    pose proof (length_filter_le (LodashValues.includes eqb b) a) as Hle2.
    assert (Hall : forall x, In x a -> LodashValues.includes eqb b x = true)
      by (apply filter_length_all; lia).
    rewrite (filter_all _ _ Hall) in Hlen.
    split; [now apply values_uniq_length_NoDup|].
    intros x Hx. now apply includes_In, Hall.
  - intros [Hnd Hall].
    rewrite filter_all by (intros x Hx; now apply includes_In, Hall).
    now rewrite values_uniq_id.
Qed.

End ValueFacts.

Lemma option_eqb_eq (a b : option string) :
  LodashValues.option_eqb String.eqb a b = true <-> a = b.
Proof.
  destruct a as [x|], b as [y|]; simpl; try (split; [discriminate|congruence]);
    [|tauto].
  rewrite String.eqb_eq. split; congruence.
Qed.

Lemma excludeUndefined_In {A} (l : list (option A)) x :
  In x (LodashValues.excludeUndefined l) <-> In (Some x) l.
Proof.
  induction l as [|[a|] l IH]; simpl; [tauto| |].
  - rewrite IH. split; intros [Heq|Hin]; auto; left; congruence.
  - rewrite IH. split; [auto|]. intros [Heq|Hin]; [discriminate | exact Hin].
Qed.

Lemma excludeUndefined_NoDup {A} (l : list (option A)) :
  NoDup l -> NoDup (LodashValues.excludeUndefined l).
Proof.
  induction l as [|[a|] l IH]; simpl; intros Hnd.
  - apply NoDup_nil_2.
  - apply NoDup_cons_1_1 in Hnd as Hnotin. apply NoDup_cons_1_2 in Hnd.
    apply NoDup_cons_2; [|now apply IH].
    intros Hin. apply Hnotin.
    apply list_elem_of_In. now apply excludeUndefined_In, list_elem_of_In.
  - apply NoDup_cons_1_2 in Hnd. now apply IH.
Qed.

(** ** Facts about the scatter plot *)

(** X25.  The sidebar is as wide as the legend, clamped: never narrower
    than [sidebarMinWidth], which is at least 60 pixels and a tenth of
    the chart, never wider than [sidebarMaxWidth], and exactly the
    width of the legend when that lies between the two. *)
Theorem sidebarWidth_clamped (bounds : Bounds.t) (legendWidth : Q) :
  let w := ScatterPlot.sidebarWidth bounds legendWidth in
  60 <= ScatterPlot.sidebarMinWidth bounds
  /\ Bounds.width bounds * 0.1 <= ScatterPlot.sidebarMinWidth bounds
  /\ ScatterPlot.sidebarMinWidth bounds <= w
  /\ w <= ScatterPlot.sidebarMaxWidth bounds
  /\ (ScatterPlot.sidebarMinWidth bounds <= legendWidth ->
      legendWidth <= ScatterPlot.sidebarMaxWidth bounds ->
      w == legendWidth)
  /\ (legendWidth <= ScatterPlot.sidebarMinWidth bounds ->
      w == ScatterPlot.sidebarMinWidth bounds)
  /\ (ScatterPlot.sidebarMaxWidth bounds <= legendWidth ->
      w == ScatterPlot.sidebarMaxWidth bounds).
Proof.
  unfold ScatterPlot.sidebarWidth, ScatterPlot.sidebarMaxWidth.
  set (lo := ScatterPlot.sidebarMinWidth bounds).
  set (hi := Qmax (Bounds.width bounds * 0.2) lo).
  assert (Hlohi : lo <= hi) by apply Q.le_max_r.
  cbv zeta.
  split; [apply Q.le_max_r|]. split; [apply Q.le_max_l|].
  split; [apply Q.le_max_r|].
  split.
  { apply Q.max_lub; [apply Q.le_min_r | exact Hlohi]. }
  split.
  { intros H1 H2. rewrite (Q.min_l _ _ H2). now apply Q.max_l. }
  split.
  { intros H1. apply Q.max_r. apply (Qle_trans _ legendWidth); [apply Q.le_min_l | exact H1]. }
  intros H1. rewrite (Q.min_r _ _ H1). now apply Q.max_l.
Qed.

Lemma allKeysActive_iff (keys selectedKeys : list string) :
  ScatterPlot.allKeysActive keys selectedKeys = true
  <-> NoDup keys /\ (forall k, In k keys -> In k selectedKeys).
Proof.
  unfold ScatterPlot.allKeysActive. rewrite Nat.eqb_eq.
  apply (intersection_full String.eqb String.eqb_eq).
Qed.

(** X26.  A click on the legend with a colour hovered and the country
    mode enabled hands over a new selection.  When the series of the
    colour have distinct entity names that are all selected, it is the
    selection without them; in every other case it is without
    repetition and holds the selection and all of them: with an entity
    name twice among the series of the colour the click never
    deselects. *)
Theorem onLegendClick_toggles (c : string) (currentData : list ScatterPlot.ScatterSeries)
        (selectedKeys : list string) :
  let keys := ScatterPlot.keysOfColor currentData c in
  let active := NoDup keys /\ (forall k, In k keys -> In k selectedKeys) in
  exists sel',
    ScatterPlot.onLegendClick false (Some c) currentData selectedKeys = Some sel'
    /\ (active -> forall k, In k sel' <-> In k selectedKeys /\ ~ In k keys)
    /\ (~ active ->
        NoDup sel' /\ forall k, In k sel' <-> In k selectedKeys \/ In k keys).
Proof.
  intros keys active. unfold ScatterPlot.onLegendClick. fold keys.
  destruct (ScatterPlot.allKeysActive keys selectedKeys) eqn:Hact.
  - apply allKeysActive_iff in Hact.
    eexists. split; [reflexivity|].
    split; [|intros Hn; exfalso; apply Hn; exact Hact].
    intros _ k. apply (without_In String.eqb String.eqb_eq).
  - assert (Hnot : ~ active).
    { intros Ha. apply allKeysActive_iff in Ha. congruence. }
    eexists. split; [reflexivity|].
    split; [intros Ha; exfalso; apply Hnot; exact Ha|].
    intros _. split; [apply (values_uniq_NoDup String.eqb String.eqb_eq)|].
    intros k. rewrite (values_uniq_In String.eqb String.eqb_eq). apply in_app_iff.
Qed.

(** X27.  Two clicks in a row on a colour whose series have distinct
    entity names: when all of them were selected, the selection is
    restored, as a set; when one of them was not, the second click
    deselects them all, those selected before the first click
    included. *)
Theorem onLegendClick_twice_restores_or_clears
        (c : string) (currentData : list ScatterPlot.ScatterSeries)
        (selectedKeys : list string) :
  let keys := ScatterPlot.keysOfColor currentData c in
  NoDup keys ->
  exists sel1 sel2,
    ScatterPlot.onLegendClick false (Some c) currentData selectedKeys = Some sel1
    /\ ScatterPlot.onLegendClick false (Some c) currentData sel1 = Some sel2
    /\ ((forall k, In k keys -> In k selectedKeys) ->
        forall k, In k sel2 <-> In k selectedKeys)
    /\ (~ (forall k, In k keys -> In k selectedKeys) ->
        forall k, In k sel2 <-> In k selectedKeys /\ ~ In k keys).
Proof.
  intros keys Hnd. unfold ScatterPlot.onLegendClick. fold keys.
  assert (Hw : forall l k, In k (LodashValues.without String.eqb l keys)
                           <-> In k l /\ ~ In k keys)
    by (intros; apply (without_In String.eqb String.eqb_eq)).
  assert (Hu : forall l k, In k (LodashValues.uniq String.eqb (l ++ keys))
                           <-> In k l \/ In k keys).
  { intros l k. rewrite (values_uniq_In String.eqb String.eqb_eq). apply in_app_iff. }
  assert (Hdec : forall k, In k keys \/ ~ In k keys).
  { intros k. destruct (in_dec string_dec k keys); tauto. }
  destruct (ScatterPlot.allKeysActive keys selectedKeys) eqn:Hact.
  - apply allKeysActive_iff in Hact as [_ Hall].
    exists (LodashValues.without String.eqb selectedKeys keys).
    destruct (ScatterPlot.allKeysActive
                keys (LodashValues.without String.eqb selectedKeys keys)) eqn:Hact2.
    + apply allKeysActive_iff in Hact2 as [_ Hall2].
      eexists. split; [reflexivity|]. split; [reflexivity|].
      split; [|intros Hn; exfalso; exact (Hn Hall)].
      intros _ k. rewrite !Hw.
      assert (Hno : ~ In k keys).
      { intros Hin. pose proof (Hall2 k Hin) as Hin2. apply Hw in Hin2. tauto. }
      tauto.
    + eexists. split; [reflexivity|]. split; [reflexivity|].
      split; [|intros Hn; exfalso; exact (Hn Hall)].
      intros _ k. rewrite Hu, Hw.
      specialize (Hdec k). specialize (Hall k). tauto.
  - assert (Hnot : ~ (forall k, In k keys -> In k selectedKeys)).
    { intros Hall. assert (ScatterPlot.allKeysActive keys selectedKeys = true)
        by now apply allKeysActive_iff. congruence. }
    assert (Hact2 : ScatterPlot.allKeysActive
                      keys (LodashValues.uniq String.eqb (selectedKeys ++ keys))
                    = true).
    { apply allKeysActive_iff. split; [exact Hnd|]. intros k Hk. apply Hu. now right. }
    exists (LodashValues.uniq String.eqb (selectedKeys ++ keys)).
    rewrite Hact2.
    eexists. split; [reflexivity|]. split; [reflexivity|].
    split; [intros Hall; exfalso; exact (Hnot Hall)|].
    intros _ k. rewrite Hw, Hu. tauto.
Qed.

(** With all three series selected, two clicks on red hand over the
    selection C, A, B. *)
Lemma onLegendClick_twice_restores_or_clears_sample :
  exists sel1 sel2,
    ScatterPlot.onLegendClick false (Some "red"%string) scatterData allSelected
    = Some sel1
    /\ ScatterPlot.onLegendClick false (Some "red"%string) scatterData sel1
       = Some sel2
    /\ sel1 = ["C"%string]
    /\ sel2 = ["C"; "A"; "B"]%string.
Proof.
  assert (Hnd : NoDup (ScatterPlot.keysOfColor scatterData "red")).
  { simpl. apply NoDup_cons_2; [|apply NoDup_singleton].
    intros Hin. apply list_elem_of_In in Hin. destruct Hin as [Hin|[]]. discriminate. }
  destruct (onLegendClick_twice_restores_or_clears
              "red"%string scatterData allSelected Hnd)
    as (sel1 & sel2 & H1 & H2 & _).
  exists sel1, sel2. split; [exact H1|]. split; [exact H2|].
  assert (Hs1 : sel1 = ["C"%string]).
  { assert (Hc : ScatterPlot.onLegendClick false (Some "red"%string)
                                            scatterData allSelected
                 = Some ["C"%string]) by reflexivity.
    congruence. }
  split; [exact Hs1|]. subst sel1.
  assert (Hc : ScatterPlot.onLegendClick false (Some "red"%string)
                                          scatterData ["C"%string]
               = Some ["C"; "A"; "B"]%string) by reflexivity.
  congruence.
Defined.

Section ColourFacts.

Context {ColorValue : Type} (getColor : ColorValue -> option string).

(** X28.  The legend shows the colours that are on the chart.
    [colorsInUse] lists every colour that [getColor] gives to a point,
    each once, and nothing else; the legend has an entry for a bin of
    the colour scale exactly when a point has the colour of the bin. *)
Theorem legend_shows_colours_in_use
        (legendData : list ScatterPlot.LegendBin) (pointColors : list ColorValue) :
  NoDup (ScatterPlot.colorsInUse getColor pointColors)
  /\ (forall c, In c (ScatterPlot.colorsInUse getColor pointColors)
                <-> exists p, In p pointColors /\ getColor p = Some c)
  /\ (forall col, In col (ScatterPlot.colorables getColor legendData pointColors)
        <-> exists bin,
              In bin legendData
              /\ (exists p, In p pointColors
                            /\ getColor p = Some (ScatterPlot.bin_color bin))
              /\ col = {| ScatterPlot.col_key :=
                            ScatterPlot.label_or_empty (ScatterPlot.bin_label bin);
                          ScatterPlot.col_label :=
                            ScatterPlot.label_or_empty (ScatterPlot.bin_label bin);
                          ScatterPlot.col_color := ScatterPlot.bin_color bin |}).
Proof.
  assert (Hin : forall c, In c (ScatterPlot.colorsInUse getColor pointColors)
                          <-> exists p, In p pointColors /\ getColor p = Some c).
  { intros c. unfold ScatterPlot.colorsInUse.
    rewrite excludeUndefined_In.
    rewrite (values_uniq_In _ option_eqb_eq).
    rewrite in_map_iff. split; intros (p & H1 & H2); exists p; tauto. }
  split; [|split; [exact Hin|]].
  - unfold ScatterPlot.colorsInUse.
    apply excludeUndefined_NoDup, (values_uniq_NoDup _ option_eqb_eq).
  - intros col. unfold ScatterPlot.colorables. rewrite in_map_iff. split.
    + intros (bin & Hcol & Hbin). apply filter_In in Hbin as [Hbin Hinc].
      apply (includes_In String.eqb String.eqb_eq), Hin in Hinc.
      exists bin. now repeat split.
    + intros (bin & Hbin & Hp & ->). exists bin. split; [reflexivity|].
      apply filter_In. split; [exact Hbin|].
      now apply (includes_In String.eqb String.eqb_eq), Hin.
Qed.

End ColourFacts.

Section TooltipFacts.

Variables (yFormatValue xFormatValue yFormatTime xFormatTime : Q -> string)
          (wrapHeight : Q -> Q -> string -> Q).

(** The values of the tooltip: the first and the last value of the
    series, once when they are one object. *)
Lemma tooltipValues_cases (vs : list (Obj ScatterPlot.ScatterValue)) :
  ScatterPlot.tooltipValues vs = []
  \/ (exists a, ScatterPlot.tooltipValues vs = [a])
  \/ (exists a b, ScatterPlot.tooltipValues vs = [a; b]).
Proof.
  unfold ScatterPlot.tooltipValues.
  destruct (head vs) as [a|], (last vs) as [b|]; simpl.
  - destruct (LodashValues.same_object b a); simpl; eauto.
  - eauto.
  - eauto.
  - now left.
Qed.

(** X29.  The lines of the tooltip are stacked: the heading comes
    first, at [y]; then three lines for each of at most two values;
    every line starts where the line before it ends, 5 pixels lower
    after the heading and after the third line of a value; all lines
    start at [x]. *)
Theorem tooltipElements_stacked (x y maxWidth fontSize : Q)
        (series : ScatterPlot.ScatterSeries) :
  let els := ScatterPlot.tooltipElements yFormatValue xFormatValue yFormatTime
               xFormatTime wrapHeight x y maxWidth fontSize series in
  let n := length (ScatterPlot.tooltipValues (ScatterPlot.values series)) in
  (n <= 2)%nat
  /\ length els = (1 + 3 * n)%nat
  /\ (exists e, els !! 0%nat = Some e
                /\ ScatterPlot.el_text e = ScatterPlot.label series
                /\ ScatterPlot.el_y e == y)
  /\ (forall e, In e els -> ScatterPlot.el_x e = x)
  /\ (forall i e e', els !! i = Some e -> els !! S i = Some e' ->
        ScatterPlot.el_y e'
        == ScatterPlot.el_y e + ScatterPlot.el_height wrapHeight e
           + (if (i mod 3 =? 0)%nat then 5 else 0)).
Proof.
  intros els n. unfold els, n, ScatterPlot.tooltipElements.
  destruct (tooltipValues_cases (ScatterPlot.values series))
    as [E|[(a & E)|(a & b & E)]]; rewrite E;
    cbn [foldl ScatterPlot.addValue snd fst app length Nat.mul Nat.add].
  all: split; [lia|]; split; [reflexivity|].
  all: split; [eexists; split; [reflexivity|]; split; [reflexivity|];
               cbn [ScatterPlot.el_y]; ring|].
  all: split; [intros e He; cbn [In] in He;
               repeat (destruct He as [<-|He]; [reflexivity|]); destruct He|].
  all: intros i e e' Hi Hi'.
  all: do 7 (try destruct i as [|i]); cbn in Hi, Hi'; try discriminate.
  all: injection Hi as <-; injection Hi' as <-.
  all: cbn [ScatterPlot.el_y ScatterPlot.el_height ScatterPlot.el_maxWidth
            ScatterPlot.el_fontSize ScatterPlot.el_text Nat.modulo Nat.eqb];
       cbn; ring.
Qed.

End TooltipFacts.

(** X30.  A click on the legend toggles the focus of the colour.  For
    a colour in use whose series have distinct entity names, the
    colour is among [focusColors] of the selection that the click
    hands over exactly when it was not among those of the selection
    before; a colour without any series is focused before and
    after. *)
Theorem legend_click_toggles_focus
        (c : string) (inUse : list string)
        (currentData : list ScatterPlot.ScatterSeries)
        (selectedKeys sel' : list string) :
  let keys := ScatterPlot.keysOfColor currentData c in
  NoDup keys ->
  In c inUse ->
  ScatterPlot.onLegendClick false (Some c) currentData selectedKeys = Some sel' ->
  (In c (ScatterPlot.focusColors inUse currentData sel')
   <-> keys = [] \/ ~ In c (ScatterPlot.focusColors inUse currentData selectedKeys)).
Proof.
  intros keys Hnd Hc.
  assert (Hfocus : forall s, In c (ScatterPlot.focusColors inUse currentData s)
                             <-> forall k, In k keys -> In k s).
  { intros s. unfold ScatterPlot.focusColors. rewrite filter_In. fold keys.
    rewrite allKeysActive_iff. tauto. }
  rewrite !Hfocus.
  unfold ScatterPlot.onLegendClick. fold keys.
  destruct (ScatterPlot.allKeysActive keys selectedKeys) eqn:Hact; intros [= <-].
  - apply allKeysActive_iff in Hact as [_ Hall]. split.
    + intros Hall'. left. destruct keys as [|k keys']; [reflexivity|].
      specialize (Hall' k (or_introl eq_refl)).
      apply (without_In String.eqb String.eqb_eq) in Hall' as [_ Hno].
      exfalso. apply Hno. now left.
    + intros [Hempty|Hno]; [|now exfalso].
      rewrite Hempty. intros k [].
  - split.
    + intros _. right. intros Hall.
      assert (ScatterPlot.allKeysActive keys selectedKeys = true)
        by now apply allKeysActive_iff.
      congruence.
    + intros _ k Hk. apply (values_uniq_In String.eqb String.eqb_eq).
      apply in_app_iff. now right.
Qed.

(** With all three series selected, a click on red takes the focus
    from red. *)
Lemma legend_click_toggles_focus_sample :
  In "red"%string (ScatterPlot.focusColors ["red"; "blue"]%string scatterData
                                           ["C"%string])
  <-> ScatterPlot.keysOfColor scatterData "red" = []
      \/ ~ In "red"%string
              (ScatterPlot.focusColors ["red"; "blue"]%string scatterData allSelected).
Proof.
  apply (legend_click_toggles_focus "red"%string ["red"; "blue"]%string
                                    scatterData allSelected ["C"%string]).
  - simpl. apply NoDup_cons_2; [|apply NoDup_singleton].
    intros Hin. apply list_elem_of_In in Hin. destruct Hin as [Hin|[]]. discriminate.
  - left. reflexivity.
  - reflexivity.
Defined.
